(** * Layout engine of the image sequence extension

    A shallow embedding of [calculate_transforms]
    (exts/omni.kit.imageseq/omni/kit/imageseq/core.py) together with the
    [Config] class of config.py, and the properties of the layout that the
    specification states about it.

    Number model.  Python [int] values are [Z].  Python [float] values are
    idealised as real numbers ([R]): every arithmetic operation is the exact
    one, so rounding, overflow to infinity and NaN are outside the model.
    Python exceptions are explicit: a computation returns [PyResult].
    The module [Binary64] replays the row position of line 121 in the
    double precision arithmetic of the program, where rounding shows. *)

From Stdlib Require Import ZArith Reals Lra Lia Ascii PrimFloat.
From stdpp Require Import base option list strings gmap.

Local Open Scope R_scope.

(** ** Python exceptions as an error monad *)

Module Py.

Inductive PyError : Type :=
| ZeroDivisionError   (* [a / b] with [b == 0] *)
| ValueError.         (* [max] of an empty sequence *)

Inductive PyResult (A : Type) : Type :=
| Ok (a : A)
| Raise (e : PyError).

Arguments Ok {A} a.
Arguments Raise {A} e.

Definition bind {A B : Type} (m : PyResult A) (k : A -> PyResult B)
  : PyResult B :=
  match m with
  | Ok a => k a
  | Raise e => Raise e
  end.

End Py.
Export Py.

Notation "'let!' x ':=' m 'in' k" := (Py.bind m (fun x => k))
  (at level 10, x name, m at level 100, k at level 200,
   format "'[v' 'let!'  x  ':='  m  'in'  '/' k ']'").

(** ** The pieces of Python the function uses *)

(** [a / b] on two [int]s: true division, raising on a zero divisor. *)
Definition int_truediv (a b : Z) : PyResult R :=
  if decide (b = 0%Z) then Raise ZeroDivisionError else Ok (IZR a / IZR b).

(** [a / b] on two [float]s. *)
Definition float_truediv (a b : R) : PyResult R :=
  if Req_dec_T b 0 then Raise ZeroDivisionError else Ok (a / b).

(** [max(a, b)]: the first of the largest arguments. *)
Definition float_max (a b : R) : R := if Rlt_dec a b then b else a.

(** [max(xs)] on a list of [int]s. *)
Definition int_list_max (xs : list Z) : PyResult Z :=
  match xs with
  | [] => Raise ValueError
  | x :: rest => Ok (fold_left Z.max rest x)
  end.

(** [math.ceil]: the least integer that is not below [x]. *)
Definition math_ceil (x : R) : Z := (- Int_part (- x))%Z.

Definition math_tau : R := 2 * PI.

(** [math.degrees(x)] is [x * (180 / pi)]. *)
Definition math_degrees (x : R) : R := x * (180 / PI).

(** ** Data model *)

(** [Gf.Vec3d]. *)
Record Vec3d : Type := mkVec3d { vx : R; vy : R; vz : R }.

(** config.py, class [Config]. *)
Record Config : Type := mkConfig {
  path_glob : string;
  expanded_glob : list string;
  ppi : Z;
  gap_pct : R;
  curve_pct : R;
  images_per_row : Z
}.

(** What the function reads of a [PIL.Image]: the name it was opened from
    and its [size], a pair (width, height) in pixels. *)
Record Image : Type := mkImage {
  filename : string;
  size : Z * Z
}.

(** core.py, class [Transform]. *)
Record Transform : Type := mkTransform {
  translate : Vec3d;
  scale : Vec3d;
  rotate : Vec3d
}.

(** ** calculate_transforms *)

Definition INCHES_TO_CM : R := 1.54.

(** The values fixed before the loop (core.py, lines 75 to 99). *)
Record Extents : Type := mkExtents {
  max_image_width_cm : R;
  max_image_height_cm : R;
  row_length : Z;             (* the local [images_per_row] *)
  total_rows : Z;
  image_gap_cm : R;
  total_width_cm : R;
  total_height_cm : R;
  left_most_cm : R;
  top_most_cm : R
}.

Definition calculate_extents (config : Config) (images : list Image)
  : PyResult Extents :=
  let image_count := Z.of_nat (length images) in
  let! max_image_width_px := int_list_max (map (fun image => fst (size image)) images) in
  let! max_image_width_in := int_truediv max_image_width_px (ppi config) in
  let max_image_width_cm := max_image_width_in * INCHES_TO_CM in
  let! max_image_height_px := int_list_max (map (fun image => snd (size image)) images) in
  let! max_image_height_in := int_truediv max_image_height_px (ppi config) in
  let max_image_height_cm := max_image_height_in * INCHES_TO_CM in
  let images_per_row :=
    if (images_per_row config <? 1)%Z then image_count
    else images_per_row config in
  let! rows := int_truediv image_count images_per_row in
  let total_rows := math_ceil rows in
  let image_gap_cm := gap_pct config * max_image_width_cm in
  let total_width_cm :=
    float_max (max_image_width_cm * IZR (images_per_row - 1)
               + image_gap_cm * IZR (Z.max (images_per_row - 1) 0)) 0 in
  let total_height_cm :=
    IZR (total_rows - 1) * max_image_height_cm
    + image_gap_cm * IZR (Z.max (total_rows - 1) 0) in
  Ok {| max_image_width_cm := max_image_width_cm;
        max_image_height_cm := max_image_height_cm;
        row_length := images_per_row;
        total_rows := total_rows;
        image_gap_cm := image_gap_cm;
        total_width_cm := total_width_cm;
        total_height_cm := total_height_cm;
        left_most_cm := -0.5 * total_width_cm;
        top_most_cm := 0.5 * total_height_cm |}.

(** The variables the loop updates (lines 101 to 105). *)
Record LoopState : Type := mkLoopState {
  left_current_cm : R;
  top_current_cm : R;
  seen : Z;
  transforms : gmap string Transform
}.

Definition initial_state (e : Extents) : LoopState :=
  {| left_current_cm := left_most_cm e;
     top_current_cm := top_most_cm e;
     seen := 0;
     transforms := ∅ |}.

(** Lines 107 to 110: start a new row once the current one is full. *)
Definition wrap_row (e : Extents) (st : LoopState) : LoopState :=
  if (seen st >? row_length e - 1)%Z then
    {| left_current_cm := left_most_cm e;
       top_current_cm := top_current_cm st - (max_image_height_cm e + image_gap_cm e);
       seen := 0;
       transforms := transforms st |}
  else st.

(** Line 121: the position of the cursor along its row. *)
Definition row_position (e : Extents) (st : LoopState) : PyResult R :=
  if Rlt_dec 0 (total_width_cm e) then
    float_truediv (left_current_cm st - left_most_cm e) (total_width_cm e)
  else Ok 0.

(** Line 123. *)
Definition phase_of (t : R) : R :=
  let turns := 0.5 * math_tau in
  (1.0 - t) * turns + 0.25 * math_tau.

(** Lines 111 to 133: the transform of one image, at the cursor [st]. *)
Definition build_transform (config : Config) (e : Extents) (st : LoopState)
    (image : Image) : PyResult Transform :=
  let image_width_px := fst (size image) in
  let image_height_px := snd (size image) in
  let! image_width_in := int_truediv image_width_px (ppi config) in
  let! image_height_in := int_truediv image_height_px (ppi config) in
  let image_width_cm := image_width_in * INCHES_TO_CM in
  let image_height_cm := image_height_in * INCHES_TO_CM in
  let! t := row_position e st in
  let phase := phase_of t in
  let amp := 0.5 * total_width_cm e in
  let x := left_current_cm st * (1.0 - curve_pct config)
           + curve_pct config * amp * sin phase in
  let z := 0 + curve_pct config * amp * cos phase in
  let angle := - curve_pct config * math_degrees (- phase + 0.5 * math_tau) in
  Ok {| translate := mkVec3d x (top_current_cm st) z;
        scale := mkVec3d image_width_cm image_height_cm 1;
        rotate := mkVec3d 0 angle 0 |}.

(** One turn of the loop (lines 107 to 138). *)
Definition loop_body (config : Config) (e : Extents) (st : LoopState)
    (image : Image) : PyResult LoopState :=
  let st := wrap_row e st in
  let! transform := build_transform config e st image in
  Ok {| left_current_cm := left_current_cm st + (max_image_width_cm e + image_gap_cm e);
        top_current_cm := top_current_cm st;
        seen := seen st + 1;
        transforms := <[filename image := transform]> (transforms st) |}.

(** [for count, image in enumerate(images)]. *)
Fixpoint run_loop (config : Config) (e : Extents) (st : LoopState)
    (images : list Image) : PyResult LoopState :=
  match images with
  | [] => Ok st
  | image :: rest =>
      let! st' := loop_body config e st image in
      run_loop config e st' rest
  end.

(** Line 70: [Image.open] on every path of [config.expanded_glob], in that
    order.  [pixels] stands for the files: the size of the image stored
    under a path.  An opened image is named after its path. *)
Definition open_images (pixels : string -> Z * Z) (config : Config)
  : list Image :=
  map (fun image_path_str =>
         {| filename := image_path_str; size := pixels image_path_str |})
      (expanded_glob config).

(** The function from line 71 on; [images] is the list built at line 70. *)
Definition calculate_transforms (config : Config) (images : list Image)
  : PyResult (gmap string Transform) :=
  if decide (length images = 0%nat) then Ok ∅
  else
    let! e := calculate_extents config images in
    let! st := run_loop config e (initial_state e) images in
    Ok (transforms st).

(** ** The loop seen turn by turn

    The cursor, the row position and the transform of the [i]-th turn are
    read off the run of the loop over the first [i] images. *)

Definition cursor_at (config : Config) (e : Extents) (images : list Image)
    (i : nat) : PyResult LoopState :=
  let! st := run_loop config e (initial_state e) (take i images) in
  Ok (wrap_row e st).

Definition row_position_at (config : Config) (e : Extents)
    (images : list Image) (i : nat) : PyResult R :=
  let! st := cursor_at config e images i in
  row_position e st.

Definition transform_at (config : Config) (e : Extents)
    (images : list Image) (i : nat) (image : Image) : PyResult Transform :=
  let! st := cursor_at config e images i in
  build_transform config e st image.

(** Where a cursor stands: column [col] of row [row]. *)
Definition stands_at (e : Extents) (st : LoopState) (col row : Z) : Prop :=
  seen st = col
  /\ left_current_cm st
     = left_most_cm e + IZR col * (max_image_width_cm e + image_gap_cm e)
  /\ top_current_cm st
     = top_most_cm e - IZR row * (max_image_height_cm e + image_gap_cm e).

(** ** make_safe_prim_name *)

(** [s.replace(old, new)] for a one-character [old]: every occurrence of
    [old] gives way to [new], from left to right.  A name is the sequence
    of its characters; for a name held as UTF-8 bytes the result is the
    same, since no byte of a non-ASCII character is an ASCII character. *)
Fixpoint str_replace (old : Ascii.ascii) (new : string) (s : string) : string :=
  match s with
  | EmptyString => EmptyString
  | String a rest =>
      if Ascii.eqb a old then new +:+ str_replace old new rest
      else String a (str_replace old new rest)
  end.

(** core.py, lines 204 to 207. *)
Definition make_safe_prim_name (name : string) (replace : string) : string :=
  fold_left (fun name c => str_replace c replace name)
            ["-"%char; "."%char; "?"%char] name.

(** The default of the parameter [replace]. *)
Definition default_replace : string := "_".

(** [c in s] for a one-character [c]. *)
Fixpoint str_contains (c : Ascii.ascii) (s : string) : bool :=
  match s with
  | EmptyString => false
  | String a rest => Ascii.eqb a c || str_contains c rest
  end.

(** ** The row position in double precision

    Lines 75 to 77, 85, 90, 93, 98, 101, 105 to 110, 121, 137 and 138 once
    more, on binary64 numbers with the rounding of the program: what feeds
    the row position [t], turn by turn. *)

Module Binary64.

(** The conversion of an [int] to a [float]; exact below 2^53. *)
Fixpoint float_of_positive (p : positive) : float :=
  match p with
  | xH => 1%float
  | xO q => (2 * float_of_positive q)%float
  | xI q => (2 * float_of_positive q + 1)%float
  end.

Definition float_of_int (z : Z) : float :=
  match z with
  | Z0 => 0%float
  | Zpos p => float_of_positive p
  | Zneg p => (- float_of_positive p)%float
  end.

(** [a / b] on two [int]s below 2^53: both convert exactly, and the
    division rounds their quotient once. *)
Definition int_truediv (a b : Z) : PyResult float :=
  if decide (b = 0%Z) then Raise ZeroDivisionError
  else Ok (float_of_int a / float_of_int b)%float.

(** [a / b] on two [float]s. *)
Definition float_truediv (a b : float) : PyResult float :=
  if (b =? 0)%float then Raise ZeroDivisionError else Ok (a / b)%float.

(** [max(a, b)]: the first of the largest arguments. *)
Definition float_max (a b : float) : float := if (a <? b)%float then b else a.

Definition INCHES_TO_CM : float := 1.54%float.

(** The fields of [Config] that the row position depends on. *)
Record Params : Type := mkParams {
  ppi : Z;
  gap_pct : float;
  images_per_row : Z
}.

(** The values fixed before the loop that the row position depends on. *)
Record Widths : Type := mkWidths {
  max_image_width_cm : float;
  row_length : Z;
  image_gap_cm : float;
  total_width_cm : float;
  left_most_cm : float
}.

Definition calculate_widths (config : Params) (images : list Image)
  : PyResult Widths :=
  let image_count := Z.of_nat (length images) in
  let! max_image_width_px := int_list_max (map (fun image => fst (size image)) images) in
  let! max_image_width_in := int_truediv max_image_width_px (ppi config) in
  let max_image_width_cm := (max_image_width_in * INCHES_TO_CM)%float in
  let images_per_row :=
    if (images_per_row config <? 1)%Z then image_count
    else images_per_row config in
  let image_gap_cm := (gap_pct config * max_image_width_cm)%float in
  let total_width_cm :=
    float_max (max_image_width_cm * float_of_int (images_per_row - 1)
               + image_gap_cm * float_of_int (Z.max (images_per_row - 1) 0))%float
              0%float in
  Ok {| max_image_width_cm := max_image_width_cm;
        row_length := images_per_row;
        image_gap_cm := image_gap_cm;
        total_width_cm := total_width_cm;
        left_most_cm := (-0.5 * total_width_cm)%float |}.

(** Line 121. *)
Definition row_position (w : Widths) (left_current_cm : float)
  : PyResult float :=
  if (0 <? total_width_cm w)%float then
    float_truediv (left_current_cm - left_most_cm w)%float (total_width_cm w)
  else Ok 0%float.

(** The loop, keeping the row positions in the order of the turns: the
    cursor [left_current_cm] and the counter [seen] are updated as in
    lines 107 to 110, 137 and 138. *)
Fixpoint run_loop (w : Widths) (left_current_cm : float) (seen : Z)
    (images : list Image) : PyResult (list float) :=
  match images with
  | [] => Ok []
  | image :: rest =>
      let wrapped := (seen >? row_length w - 1)%Z in
      let left_current_cm := if wrapped then left_most_cm w else left_current_cm in
      let seen := if wrapped then 0%Z else seen in
      let! t := row_position w left_current_cm in
      let! ts :=
        run_loop w (left_current_cm + (max_image_width_cm w + image_gap_cm w))%float
                 (seen + 1)%Z rest in
      Ok (t :: ts)
  end.

Definition row_positions (config : Params) (images : list Image)
  : PyResult (list float) :=
  if decide (length images = 0%nat) then Ok []
  else
    let! w := calculate_widths config images in
    run_loop w (left_most_cm w) 0%Z images.

End Binary64.

(** Six images of 1920 by 1080 pixels, and the defaults of the window for
    [ppi] and the gap, six images per row. *)
Definition six_frames : list Image :=
  map (fun name => {| filename := name; size := (1920, 1080)%Z |})
      ["0.png"; "1.png"; "2.png"; "3.png"; "4.png"; "5.png"].

Definition window_defaults : Binary64.Params :=
  {| Binary64.ppi := 100;
     Binary64.gap_pct := 0.1%float;
     Binary64.images_per_row := 6 |}.

(** ** Sample inputs *)

Definition square (name : string) : Image :=
  {| filename := name; size := (300, 300)%Z |}.

Definition three_squares : list Image :=
  [square "a.png"; square "b.png"; square "c.png"].

(** Three images found by the glob, laid out with a gap of a tenth of the
    largest width. *)
Definition scenario (density : Z) (curve : R) (per_row : Z) : Config :=
  {| path_glob := "*.png";
     expanded_glob := ["a.png"; "b.png"; "c.png"];
     ppi := density;
     gap_pct := 0.1;
     curve_pct := curve;
     images_per_row := per_row |}.

(** An upright square image of side [side], at [x] on the horizontal axis. *)
Definition upright (x side : R) : Transform :=
  {| translate := mkVec3d x 0 0;
     scale := mkVec3d side side 1;
     rotate := mkVec3d 0 0 0 |}.

(** A single image, wider than high, and the parameters of its layout. *)
Definition banner : Image :=
  {| filename := "banner.png"; size := (600, 300)%Z |}.

Definition banner_config : Config :=
  {| path_glob := "banner.png";
     expanded_glob := ["banner.png"];
     ppi := 300;
     gap_pct := 0;
     curve_pct := 0;
     images_per_row := 0 |}.

(** Two images opened from the same path, with another one in between. *)
Definition repeated_squares : list Image :=
  [square "a.png"; square "b.png"; square "a.png"].

(** * Properties *)

(** ** The error monad and the Python primitives *)

Lemma bind_Ok_inv {A B : Type} (m : PyResult A) (k : A -> PyResult B) (b : B) :
  Py.bind m k = Ok b -> exists a, m = Ok a /\ k a = Ok b.
Proof.
  destruct m as [a|err]; simpl; intros H; [eauto | discriminate].
Qed.

Lemma int_truediv_ok (a b : Z) :
  b <> 0%Z -> int_truediv a b = Ok (IZR a / IZR b).
Proof.
  intros Hb. unfold int_truediv. destruct (decide (b = 0%Z)); congruence.
Qed.

Lemma int_truediv_zero (a : Z) : int_truediv a 0 = Raise ZeroDivisionError.
Proof. reflexivity. Qed.

Lemma float_truediv_ok (a b : R) :
  b <> 0 -> float_truediv a b = Ok (a / b).
Proof.
  intros Hb. unfold float_truediv. destruct (Req_dec_T b 0); congruence.
Qed.

Lemma float_max_Rmax (a b : R) : float_max a b = Rmax a b.
Proof.
  unfold float_max, Rmax.
  destruct (Rlt_dec a b), (Rle_dec a b); try reflexivity; lra.
Qed.

Lemma float_max_0_nonneg (a : R) : 0 <= float_max a 0.
Proof. unfold float_max. destruct (Rlt_dec a 0); lra. Qed.

Lemma float_max_0_pos (a : R) : 0 < float_max a 0 -> float_max a 0 = a /\ 0 < a.
Proof. unfold float_max. destruct (Rlt_dec a 0); lra. Qed.

Lemma float_max_0_l (a : R) : 0 <= a -> float_max a 0 = a.
Proof. unfold float_max. destruct (Rlt_dec a 0); lra. Qed.

Lemma math_ceil_spec (x : R) (n : Z) :
  IZR n - 1 < x <= IZR n -> math_ceil x = n.
Proof.
  intros [Hlo Hhi]. unfold math_ceil.
  rewrite <- (Int_part_spec (- x) (- n)); [lia |].
  rewrite opp_IZR. lra.
Qed.

Lemma math_ceil_IZR (n : Z) : math_ceil (IZR n) = n.
Proof. apply math_ceil_spec. lra. Qed.

Lemma int_list_max_cons (x : Z) (rest : list Z) :
  int_list_max (x :: rest) = Ok (fold_left Z.max rest x).
Proof. reflexivity. Qed.

Lemma row_position_pos (e : Extents) (st : LoopState) :
  0 < total_width_cm e ->
  row_position e st
  = Ok ((left_current_cm st - left_most_cm e) / total_width_cm e).
Proof.
  intros Hw. unfold row_position.
  destruct (Rlt_dec 0 (total_width_cm e)); [| contradiction].
  apply float_truediv_ok. lra.
Qed.

Lemma row_position_flat (e : Extents) (st : LoopState) :
  ~ 0 < total_width_cm e -> row_position e st = Ok 0.
Proof.
  intros Hw. unfold row_position.
  destruct (Rlt_dec 0 (total_width_cm e)); [contradiction | reflexivity].
Qed.

(** The guarded division of line 121 never raises. *)
Lemma row_position_total (e : Extents) (st : LoopState) :
  exists t, row_position e st = Ok t.
Proof.
  destruct (Rlt_dec 0 (total_width_cm e)) as [Hw|Hw].
  - rewrite row_position_pos by exact Hw. eauto.
  - rewrite row_position_flat by exact Hw. eauto.
Qed.

(** ** Angles *)

Lemma phase_of_eq (t : R) : phase_of t = (1 - t) * PI + PI / 2.
Proof. unfold phase_of, math_tau. lra. Qed.

Lemma math_degrees_quarter : math_degrees (PI / 2) = 90.
Proof. unfold math_degrees. field. apply PI_neq0. Qed.

Lemma math_degrees_opp (x : R) : math_degrees (- x) = - math_degrees x.
Proof. unfold math_degrees. ring. Qed.

(** ** One image *)

Section OneImage.
Variables (config : Config) (e : Extents).

(** What [build_transform] returns, field by field. *)
Lemma build_transform_inv (st : LoopState) (image : Image) (tr : Transform) :
  build_transform config e st image = Ok tr ->
  exists t,
    row_position e st = Ok t
    /\ translate tr
       = mkVec3d (left_current_cm st * (1.0 - curve_pct config)
                  + curve_pct config * (0.5 * total_width_cm e) * sin (phase_of t))
                 (top_current_cm st)
                 (0 + curve_pct config * (0.5 * total_width_cm e) * cos (phase_of t))
    /\ scale tr
       = mkVec3d (IZR (fst (size image)) / IZR (ppi config) * INCHES_TO_CM)
                 (IZR (snd (size image)) / IZR (ppi config) * INCHES_TO_CM)
                 1
    /\ rotate tr
       = mkVec3d 0
                 (- curve_pct config
                  * math_degrees (- phase_of t + 0.5 * math_tau))
                 0.
Proof.
  unfold build_transform, int_truediv.
  destruct (decide (ppi config = 0%Z)) as [|Hppi]; [discriminate |].
  cbn [Py.bind]. intros H.
  apply bind_Ok_inv in H as (t & Ht & H).
  exists t. split; [exact Ht |]. inversion H; subst tr; cbn. auto.
Qed.

Hypothesis ppi_nonzero : ppi config <> 0%Z.

Lemma build_transform_total (st : LoopState) (image : Image) :
  exists tr, build_transform config e st image = Ok tr.
Proof.
  unfold build_transform.
  rewrite !int_truediv_ok by exact ppi_nonzero. cbn [Py.bind].
  destruct (row_position_total e st) as [t ->]. cbn [Py.bind]. eauto.
Qed.

Lemma loop_body_total (st : LoopState) (image : Image) :
  exists tr,
    build_transform config e (wrap_row e st) image = Ok tr
    /\ loop_body config e st image
       = Ok {| left_current_cm :=
                 left_current_cm (wrap_row e st)
                 + (max_image_width_cm e + image_gap_cm e);
               top_current_cm := top_current_cm (wrap_row e st);
               seen := seen (wrap_row e st) + 1;
               transforms :=
                 <[filename image := tr]> (transforms (wrap_row e st)) |}.
Proof.
  destruct (build_transform_total (wrap_row e st) image) as [tr Htr].
  exists tr. split; [exact Htr |].
  unfold loop_body. rewrite Htr. reflexivity.
Qed.

End OneImage.

Lemma wrap_row_transforms (e : Extents) (st : LoopState) :
  transforms (wrap_row e st) = transforms st.
Proof. unfold wrap_row. destruct (seen st >? row_length e - 1)%Z; reflexivity. Qed.

Lemma loop_body_inv (config : Config) (e : Extents) (st st' : LoopState)
    (image : Image) :
  loop_body config e st image = Ok st' ->
  exists tr,
    build_transform config e (wrap_row e st) image = Ok tr
    /\ transforms st' = <[filename image := tr]> (transforms st)
    /\ left_current_cm st'
       = left_current_cm (wrap_row e st) + (max_image_width_cm e + image_gap_cm e)
    /\ top_current_cm st' = top_current_cm (wrap_row e st)
    /\ seen st' = (seen (wrap_row e st) + 1)%Z.
Proof.
  unfold loop_body. intros H.
  apply bind_Ok_inv in H as (tr & Htr & H).
  exists tr. split; [exact Htr |].
  inversion H; subst st'; cbn. rewrite wrap_row_transforms. auto.
Qed.

(** ** The whole loop *)

Lemma run_loop_app (config : Config) (e : Extents) (st : LoopState)
    (xs ys : list Image) :
  run_loop config e st (xs ++ ys)
  = let! st' := run_loop config e st xs in run_loop config e st' ys.
Proof.
  revert st. induction xs as [|x xs IH]; intros st; [reflexivity |].
  cbn [app run_loop].
  destruct (loop_body config e st x) as [st1|err]; cbn [Py.bind]; auto.
Qed.

Lemma run_loop_snoc_inv (config : Config) (e : Extents) (st st' : LoopState)
    (xs : list Image) (x : Image) :
  run_loop config e st (xs ++ [x]) = Ok st' ->
  exists st1,
    run_loop config e st xs = Ok st1 /\ loop_body config e st1 x = Ok st'.
Proof.
  rewrite run_loop_app. intros H.
  apply bind_Ok_inv in H as (st1 & H1 & H).
  exists st1. split; [exact H1 |].
  cbn [run_loop] in H.
  destruct (loop_body config e st1 x); [exact H | discriminate].
Qed.

Lemma run_loop_total (config : Config) (e : Extents) :
  ppi config <> 0%Z ->
  forall (images : list Image) (st : LoopState),
    exists st', run_loop config e st images = Ok st'.
Proof.
  intros Hppi images.
  induction images as [|image rest IH]; intros st; cbn [run_loop]; [eauto |].
  destruct (loop_body_total config e Hppi st image) as (tr & _ & ->).
  cbn [Py.bind]. apply IH.
Qed.

(** A prefix of a successful run is a successful run. *)
Lemma run_loop_take (config : Config) (e : Extents) (st st' : LoopState)
    (images : list Image) (i : nat) :
  run_loop config e st images = Ok st' ->
  exists st1, run_loop config e st (take i images) = Ok st1.
Proof.
  intros H. rewrite <- (take_drop i images), run_loop_app in H.
  apply bind_Ok_inv in H as (st1 & H1 & _). eauto.
Qed.

(** ** The dictionary the loop fills *)

Section Dictionary.
Variables (config : Config) (e : Extents).

Lemma transform_at_intro (images : list Image) (i : nat) (image : Image)
    (st : LoopState) (tr : Transform) :
  run_loop config e (initial_state e) (take i images) = Ok st ->
  build_transform config e (wrap_row e st) image = Ok tr ->
  transform_at config e images i image = Ok tr.
Proof.
  intros Hrun Htr. unfold transform_at, cursor_at.
  rewrite Hrun. cbn [Py.bind]. exact Htr.
Qed.

Lemma transform_at_app (xs ys : list Image) (i : nat) (image : Image) :
  (i <= length xs)%nat ->
  transform_at config e (xs ++ ys) i image = transform_at config e xs i image.
Proof.
  intros Hi. unfold transform_at, cursor_at. now rewrite take_app_le.
Qed.

(** Every entry was written by some turn of the loop, for an image of
    that name. *)
Lemma transforms_origin (images : list Image) (st : LoopState) :
  run_loop config e (initial_state e) images = Ok st ->
  forall (key : string) (tr : Transform),
    transforms st !! key = Some tr ->
    exists (i : nat) (image : Image),
      images !! i = Some image
      /\ filename image = key
      /\ transform_at config e images i image = Ok tr.
Proof.
  revert st. induction images as [|x xs IH] using rev_ind; intros st Hrun key tr Hkey.
  - cbn in Hrun. inversion Hrun; subst st. cbn in Hkey.
    rewrite lookup_empty in Hkey. discriminate.
  - apply run_loop_snoc_inv in Hrun as (st1 & Hrun1 & Hbody).
    apply loop_body_inv in Hbody as (trx & Htrx & Hdict & _).
    rewrite Hdict in Hkey.
    destruct (decide (filename x = key)) as [Heq|Hne].
    + rewrite <- Heq, lookup_insert_eq in Hkey. inversion Hkey; subst trx.
      exists (length xs), x. split; [| split; [exact Heq |]].
      * rewrite lookup_app_r by lia. now rewrite Nat.sub_diag.
      * apply transform_at_intro with (st := st1); [| exact Htrx].
        rewrite take_app_le by lia. now rewrite firstn_all.
    + rewrite lookup_insert_ne in Hkey by exact Hne.
      destruct (IH st1 Hrun1 key tr Hkey) as (i & image & Hi & Hname & Htr).
      exists i, image. split; [| split; [exact Hname |]].
      * apply lookup_app_l_Some. exact Hi.
      * rewrite transform_at_app; [exact Htr |].
        apply lookup_lt_Some in Hi. lia.
Qed.

(** With pairwise distinct names, the entry of an image is the transform
    built at its own turn. *)
Lemma transforms_lookup (images : list Image) (st : LoopState) :
  NoDup (map filename images) ->
  run_loop config e (initial_state e) images = Ok st ->
  forall (i : nat) (image : Image),
    images !! i = Some image ->
    exists tr,
      transform_at config e images i image = Ok tr
      /\ transforms st !! filename image = Some tr.
Proof.
  revert st. induction images as [|x xs IH] using rev_ind;
    intros st Hnd Hrun i image Hi.
  - rewrite lookup_nil in Hi. discriminate.
  - apply run_loop_snoc_inv in Hrun as (st1 & Hrun1 & Hbody).
    apply loop_body_inv in Hbody as (trx & Htrx & Hdict & _).
    rewrite map_app in Hnd. apply NoDup_app in Hnd as (Hnd & Hfresh & _).
    destruct (decide (i < length xs)%nat) as [Hlt|Hge].
    + rewrite lookup_app_l in Hi by exact Hlt.
      destruct (IH st1 Hnd Hrun1 i image Hi) as (tr & Htr & Hlook).
      exists tr. split.
      * rewrite transform_at_app by lia. exact Htr.
      * rewrite Hdict, lookup_insert_ne; [exact Hlook |].
        intros Heq. apply (Hfresh (filename image)).
        -- apply list_elem_of_fmap. exists image. split; [reflexivity |].
           apply list_elem_of_lookup. eauto.
        -- rewrite <- Heq. cbn. left.
    + assert (i = length xs) as ->.
      { apply lookup_lt_Some in Hi. rewrite length_app in Hi. cbn in Hi. lia. }
      rewrite lookup_app_r, Nat.sub_diag in Hi by lia.
      cbn in Hi. inversion Hi; subst image.
      exists trx. split.
      * apply transform_at_intro with (st := st1); [| exact Htrx].
        rewrite take_app_le by lia. now rewrite firstn_all.
      * rewrite Hdict. apply lookup_insert_eq.
Qed.

(** The keys are the names of the images. *)
Lemma transforms_dom (images : list Image) (st : LoopState) :
  run_loop config e (initial_state e) images = Ok st ->
  dom (transforms st) = list_to_set (map filename images).
Proof.
  revert st. induction images as [|x xs IH] using rev_ind; intros st Hrun.
  - cbn in Hrun. inversion Hrun; subst st. cbn. apply dom_empty_L.
  - apply run_loop_snoc_inv in Hrun as (st1 & Hrun1 & Hbody).
    apply loop_body_inv in Hbody as (trx & _ & Hdict & _).
    rewrite Hdict, dom_insert_L, (IH st1 Hrun1), map_app, list_to_set_app_L.
    cbn [map list_to_set]. rewrite union_empty_r_L. apply (comm_L (∪)).
Qed.

End Dictionary.

(** ** Rows and columns

    At its [n]-th turn the cursor stands in column [n mod row_length] of
    row [n / row_length]. *)

Lemma next_column_wraps (n k : Z) :
  (0 <= n)%Z -> (1 <= k)%Z -> (n mod k + 1 > k - 1)%Z ->
  ((n + 1) mod k = 0)%Z /\ ((n + 1) / k = n / k + 1)%Z.
Proof.
  intros Hn Hk Hfull.
  pose proof (Z.div_mod n k ltac:(lia)) as Hdiv.
  pose proof (Z.mod_pos_bound n k ltac:(lia)) as Hmod.
  assert (n + 1 = k * (n / k + 1) + 0)%Z as Heq by lia.
  split.
  - symmetry. apply (Z.mod_unique _ _ (n / k + 1)); [lia | exact Heq].
  - symmetry. apply (Z.div_unique _ _ _ 0); [lia | exact Heq].
Qed.

Lemma next_column_stays (n k : Z) :
  (0 <= n)%Z -> (1 <= k)%Z -> (n mod k + 1 <= k - 1)%Z ->
  ((n + 1) mod k = n mod k + 1)%Z /\ ((n + 1) / k = n / k)%Z.
Proof.
  intros Hn Hk Hroom.
  pose proof (Z.div_mod n k ltac:(lia)) as Hdiv.
  pose proof (Z.mod_pos_bound n k ltac:(lia)) as Hmod.
  assert (n + 1 = k * (n / k) + (n mod k + 1))%Z as Heq by lia.
  split.
  - symmetry. apply (Z.mod_unique _ _ (n / k)); [lia | exact Heq].
  - symmetry. apply (Z.div_unique _ _ _ (n mod k + 1)); [lia | exact Heq].
Qed.

Section Cursor.
Variables (config : Config) (e : Extents).
Hypothesis ppi_nonzero : ppi config <> 0%Z.
Hypothesis row_length_pos : (1 <= row_length e)%Z.

Lemma cursor_after (images : list Image) :
  exists st,
    run_loop config e (initial_state e) images = Ok st
    /\ stands_at e (wrap_row e st)
         (Z.of_nat (length images) mod row_length e)
         (Z.of_nat (length images) / row_length e).
Proof.
  induction images as [|x xs IH] using rev_ind.
  - exists (initial_state e). split; [reflexivity |].
    unfold wrap_row, stands_at. cbn [length initial_state seen].
    destruct (Z.gtb_spec 0 (row_length e - 1)) as [Hgt|_]; [lia |].
    cbn [seen left_current_cm top_current_cm Z.of_nat].
    rewrite Zmod_0_l, Zdiv_0_l. cbn [initial_state seen left_current_cm top_current_cm].
    repeat split; first [reflexivity | lra].
  - destruct IH as (st1 & Hrun1 & Hseen & Hleft & Htop).
    destruct (loop_body_total config e ppi_nonzero st1 x) as (tr & _ & Hbody).
    rewrite run_loop_app, Hrun1. cbn [Py.bind run_loop]. rewrite Hbody.
    cbn [Py.bind]. eexists. split; [reflexivity |].
    rewrite length_app, Nat2Z.inj_add. cbn [length].
    change (Z.of_nat 1) with 1%Z.
    set (n := Z.of_nat (length xs)) in *.
    assert (0 <= n)%Z as Hn by (subst n; lia).
    unfold wrap_row at 1, stands_at. cbn [seen].
    rewrite Hseen.
    destruct (Z.gtb_spec (n mod row_length e + 1) (row_length e - 1)) as [Hfull|Hroom].
    + destruct (next_column_wraps n (row_length e) Hn row_length_pos) as [-> ->];
        [lia |].
      cbn [seen left_current_cm top_current_cm].
      rewrite Htop, plus_IZR. repeat split; first [reflexivity | lra].
    + destruct (next_column_stays n (row_length e) Hn row_length_pos Hroom)
        as [-> ->].
      cbn [seen left_current_cm top_current_cm].
      rewrite Hleft, Htop, plus_IZR. repeat split; first [reflexivity | lra].
Qed.

Lemma cursor_at_closed (images : list Image) (i : nat) :
  (i <= length images)%nat ->
  exists st,
    cursor_at config e images i = Ok st
    /\ seen st = (Z.of_nat i mod row_length e)%Z
    /\ left_current_cm st
       = left_most_cm e
         + IZR (Z.of_nat i mod row_length e)
           * (max_image_width_cm e + image_gap_cm e)
    /\ top_current_cm st
       = top_most_cm e
         - IZR (Z.of_nat i / row_length e)
           * (max_image_height_cm e + image_gap_cm e).
Proof.
  intros Hi.
  destruct (cursor_after (take i images)) as (st & Hrun & Hst).
  rewrite length_take_le in Hst by exact Hi.
  exists (wrap_row e st). split; [| exact Hst].
  unfold cursor_at. rewrite Hrun. reflexivity.
Qed.

End Cursor.

(** ** The extents *)

(** What a successful [calculate_extents] has computed. *)
Lemma calculate_extents_inv (config : Config) (images : list Image) (e : Extents) :
  calculate_extents config images = Ok e ->
  exists (max_w max_h : Z),
    int_list_max (map (fun image => fst (size image)) images) = Ok max_w
    /\ int_list_max (map (fun image => snd (size image)) images) = Ok max_h
    /\ ppi config <> 0%Z
    /\ max_image_width_cm e = IZR max_w / IZR (ppi config) * INCHES_TO_CM
    /\ max_image_height_cm e = IZR max_h / IZR (ppi config) * INCHES_TO_CM
    /\ row_length e
       = (if (images_per_row config <? 1)%Z then Z.of_nat (length images)
          else images_per_row config)
    /\ (1 <= row_length e)%Z
    /\ total_rows e
       = math_ceil (IZR (Z.of_nat (length images)) / IZR (row_length e))
    /\ image_gap_cm e = gap_pct config * max_image_width_cm e
    /\ total_width_cm e
       = float_max (max_image_width_cm e * IZR (row_length e - 1)
                    + image_gap_cm e * IZR (Z.max (row_length e - 1) 0)) 0
    /\ total_height_cm e
       = IZR (total_rows e - 1) * max_image_height_cm e
         + image_gap_cm e * IZR (Z.max (total_rows e - 1) 0)
    /\ left_most_cm e = -0.5 * total_width_cm e
    /\ top_most_cm e = 0.5 * total_height_cm e.
Proof.
  unfold calculate_extents. intros H.
  apply bind_Ok_inv in H as (max_w & Hw & H).
  unfold int_truediv at 1 2 in H.
  destruct (decide (ppi config = 0%Z)) as [|Hppi]; [discriminate |].
  cbn [Py.bind] in H.
  apply bind_Ok_inv in H as (max_h & Hh & H).
  apply bind_Ok_inv in H as (rows & Hrows & H).
  unfold int_truediv in Hrows.
  match type of Hrows with
  | (if decide (?k = 0%Z) then _ else _) = _ =>
      destruct (decide (k = 0%Z)) as [|Hk]; [discriminate |]
  end.
  inversion Hrows; subst rows; clear Hrows.
  inversion H; subst e; clear H. cbn.
  exists max_w, max_h. repeat split; try reflexivity; try assumption.
  destruct images as [|image rest]; [discriminate |].
  destruct (Z.ltb_spec (images_per_row config) 1); cbn [length] in *; lia.
Qed.

Lemma calculate_extents_total (config : Config) (images : list Image) :
  images <> [] -> ppi config <> 0%Z ->
  exists e, calculate_extents config images = Ok e.
Proof.
  intros Himages Hppi. destruct images as [|image rest]; [contradiction |].
  unfold calculate_extents. cbn [map]. rewrite !int_list_max_cons.
  cbn [Py.bind]. rewrite !int_truediv_ok by exact Hppi. cbn [Py.bind].
  rewrite int_truediv_ok; [cbn [Py.bind]; eauto |].
  destruct (Z.ltb_spec (images_per_row config) 1); cbn [length]; lia.
Qed.

Lemma calculate_extents_zero_ppi (config : Config) (images : list Image) :
  images <> [] -> ppi config = 0%Z ->
  calculate_extents config images = Raise ZeroDivisionError.
Proof.
  intros Himages Hppi. destruct images as [|image rest]; [contradiction |].
  unfold calculate_extents. cbn [map]. rewrite int_list_max_cons, Hppi.
  reflexivity.
Qed.

(** The width of a row is that of [row_length - 1] steps of the cursor,
    unless that is negative. *)
Lemma total_width_steps (config : Config) (images : list Image) (e : Extents) :
  calculate_extents config images = Ok e ->
  total_width_cm e
  = float_max (IZR (row_length e - 1)
               * (max_image_width_cm e + image_gap_cm e)) 0.
Proof.
  intros H.
  destruct (calculate_extents_inv _ _ _ H)
    as (_ & _ & _ & _ & _ & _ & _ & _ & Hk & _ & _ & Hw & _).
  rewrite Hw, Z.max_l by lia. f_equal. lra.
Qed.

(** ** calculate_transforms as a whole *)

Lemma calculate_transforms_inv (config : Config) (images : list Image)
    (m : gmap string Transform) :
  calculate_transforms config images = Ok m ->
  (images = [] /\ m = ∅)
  \/ (exists e st,
        images <> []
        /\ calculate_extents config images = Ok e
        /\ run_loop config e (initial_state e) images = Ok st
        /\ m = transforms st).
Proof.
  unfold calculate_transforms.
  destruct (decide (length images = 0%nat)) as [Hlen|Hlen]; intros H.
  - left. split; [now apply length_zero_iff_nil | congruence].
  - right.
    apply bind_Ok_inv in H as (e & He & H).
    apply bind_Ok_inv in H as (st & Hst & H).
    exists e, st. repeat split; [| exact He | exact Hst | congruence].
    intros ->. now apply Hlen.
Qed.

Lemma calculate_transforms_total (config : Config) (images : list Image) :
  images <> [] -> ppi config <> 0%Z ->
  exists e st,
    calculate_extents config images = Ok e
    /\ run_loop config e (initial_state e) images = Ok st
    /\ calculate_transforms config images = Ok (transforms st).
Proof.
  intros Himages Hppi.
  destruct (calculate_extents_total config images Himages Hppi) as [e He].
  destruct (run_loop_total config e Hppi images (initial_state e)) as [st Hst].
  exists e, st. repeat split; [exact He | exact Hst |].
  unfold calculate_transforms.
  destruct (decide (length images = 0%nat)) as [Hlen|_].
  - apply length_zero_iff_nil in Hlen. contradiction.
  - rewrite He. cbn [Py.bind]. rewrite Hst. reflexivity.
Qed.

(** The keys of the result are the names of the images. *)
Lemma calculate_transforms_dom (config : Config) (images : list Image)
    (m : gmap string Transform) :
  calculate_transforms config images = Ok m ->
  dom m = list_to_set (map filename images).
Proof.
  intros Hm.
  destruct (calculate_transforms_inv _ _ _ Hm)
    as [[-> ->] | (e & st & _ & _ & Hrun & ->)].
  - cbn. apply dom_empty_L.
  - apply (transforms_dom config e images st Hrun).
Qed.

(** Each turn of a successful layout: where the cursor stands, and that a
    row position and a transform are computed there. *)
Lemma turn_summary (config : Config) (images : list Image) (e : Extents) :
  calculate_extents config images = Ok e ->
  forall (i : nat) (image : Image),
    images !! i = Some image ->
    exists st t tr,
      cursor_at config e images i = Ok st
      /\ seen st = (Z.of_nat i mod row_length e)%Z
      /\ left_current_cm st
         = left_most_cm e
           + IZR (Z.of_nat i mod row_length e)
             * (max_image_width_cm e + image_gap_cm e)
      /\ top_current_cm st
         = top_most_cm e
           - IZR (Z.of_nat i / row_length e)
             * (max_image_height_cm e + image_gap_cm e)
      /\ row_position_at config e images i = Ok t
      /\ row_position e st = Ok t
      /\ transform_at config e images i image = Ok tr
      /\ build_transform config e st image = Ok tr.
Proof.
  intros He i image Hi.
  destruct (calculate_extents_inv _ _ _ He)
    as (_ & _ & _ & _ & Hppi & _ & _ & _ & Hk & _).
  apply lookup_lt_Some in Hi.
  destruct (cursor_at_closed config e Hppi Hk images i ltac:(lia))
    as (st & Hcur & Hseen & Hleft & Htop).
  destruct (row_position_total e st) as [t Ht].
  destruct (build_transform_total config e Hppi st image) as [tr Htr].
  exists st, t, tr. unfold row_position_at, transform_at. rewrite Hcur.
  cbn [Py.bind]. auto 10.
Qed.

(** The row position is the column over the number of steps in a row. *)
Lemma row_position_bounds (config : Config) (images : list Image) (e : Extents)
    (st : LoopState) (t : R) :
  calculate_extents config images = Ok e ->
  (0 <= seen st <= row_length e - 1)%Z ->
  left_current_cm st
  = left_most_cm e + IZR (seen st) * (max_image_width_cm e + image_gap_cm e) ->
  row_position e st = Ok t ->
  0 <= t <= 1.
Proof.
  intros He Hseen Hleft Ht.
  destruct (Rlt_dec 0 (total_width_cm e)) as [Hw|Hw].
  - rewrite row_position_pos in Ht by exact Hw. inversion Ht; subst t; clear Ht.
    rewrite Hleft.
    pose proof (total_width_steps _ _ _ He) as Hsteps.
    rewrite Hsteps in Hw. apply float_max_0_pos in Hw as [Hmax Hpos].
    rewrite Hsteps, Hmax.
    set (step := max_image_width_cm e + image_gap_cm e) in *.
    assert (0 <= IZR (seen st)) as Hcol by (apply IZR_le; lia).
    assert (IZR (seen st) <= IZR (row_length e - 1)) as Hlast by (apply IZR_le; lia).
    assert (0 < step) as Hstep by nra.
    replace (left_most_cm e + IZR (seen st) * step - left_most_cm e)
      with (IZR (seen st) * step) by lra.
    split.
    + apply Rmult_le_pos; [nra |]. apply Rlt_le, Rinv_0_lt_compat, Hpos.
    + apply (Rmult_le_reg_r (IZR (row_length e - 1) * step)); [exact Hpos |].
      unfold Rdiv. rewrite Rmult_assoc, Rinv_l by lra. nra.
  - rewrite row_position_flat in Ht by exact Hw. inversion Ht. lra.
Qed.

(** ** Closed form of an entry *)

(** With pairwise distinct names, the entry of the [i]-th image in terms of
    the extents, its column [i mod row_length] and its row
    [i / row_length]. *)
Lemma layout_entry (config : Config) (images : list Image) (e : Extents)
    (m : gmap string Transform) :
  calculate_extents config images = Ok e ->
  calculate_transforms config images = Ok m ->
  NoDup (map filename images) ->
  forall (i : nat) (image : Image),
    images !! i = Some image ->
    let column := IZR (Z.of_nat i mod row_length e) in
    let row := IZR (Z.of_nat i / row_length e) in
    let left := left_most_cm e
                + column * (max_image_width_cm e + image_gap_cm e) in
    exists (t : R) (tr : Transform),
      m !! filename image = Some tr
      /\ row_position_at config e images i = Ok t
      /\ (0 < total_width_cm e -> t = (left - left_most_cm e) / total_width_cm e)
      /\ (~ 0 < total_width_cm e -> t = 0)
      /\ translate tr
         = mkVec3d (left * (1.0 - curve_pct config)
                    + curve_pct config * (0.5 * total_width_cm e) * sin (phase_of t))
                   (top_most_cm e
                    - row * (max_image_height_cm e + image_gap_cm e))
                   (0 + curve_pct config * (0.5 * total_width_cm e) * cos (phase_of t))
      /\ scale tr
         = mkVec3d (IZR (fst (size image)) / IZR (ppi config) * INCHES_TO_CM)
                   (IZR (snd (size image)) / IZR (ppi config) * INCHES_TO_CM)
                   1
      /\ rotate tr
         = mkVec3d 0
                   (- curve_pct config
                    * math_degrees (- phase_of t + 0.5 * math_tau))
                   0.
Proof.
  intros He Hm Hnd i image Himg. cbv zeta.
  destruct (calculate_transforms_inv _ _ _ Hm)
    as [[-> _] | (e' & st & _ & He' & Hrun & ->)].
  { rewrite lookup_nil in Himg. discriminate. }
  assert (e' = e) as -> by congruence.
  destruct (turn_summary _ _ _ He i image Himg)
    as (cur & t & tr & _ & _ & Hleft & Htop & Hat & Ht & Htr & Hbuild).
  destruct (transforms_lookup config e images st Hnd Hrun i image Himg)
    as (tr' & Htr' & Hlook).
  assert (tr' = tr) as -> by congruence.
  exists t, tr. split; [exact Hlook |]. split; [exact Hat |].
  apply build_transform_inv in Hbuild as (t' & Ht' & Htranslate & Hscale & Hrotate).
  assert (t' = t) as -> by congruence.
  rewrite Htranslate, Hscale, Hrotate, Hleft, Htop.
  repeat split.
  - intros Hw. rewrite row_position_pos in Ht by exact Hw.
    rewrite Hleft in Ht. congruence.
  - intros Hw. rewrite row_position_flat in Ht by exact Hw. congruence.
Qed.

(** ** The sample inputs, evaluated *)

Lemma Transform_eq (tr : Transform) (t s r : Vec3d) :
  translate tr = t -> scale tr = s -> rotate tr = r ->
  tr = {| translate := t; scale := s; rotate := r |}.
Proof. destruct tr; cbn; congruence. Qed.

Lemma Vec3d_eq (x y z x' y' z' : R) :
  x = x' -> y = y' -> z = z' -> mkVec3d x y z = mkVec3d x' y' z'.
Proof. congruence. Qed.

Lemma three_squares_opened (density : Z) (curve : R) (per_row : Z) :
  open_images (fun _ => (300, 300)%Z) (scenario density curve per_row)
  = three_squares.
Proof. reflexivity. Qed.

Lemma banner_opened :
  open_images (fun _ => (600, 300)%Z) banner_config = [banner].
Proof. reflexivity. Qed.

Lemma three_squares_NoDup : NoDup (map filename three_squares).
Proof. apply (bool_decide_unpack _). vm_compute. exact I. Qed.

(** The extents of three squares in one row, at 300 pixels per inch. *)
Lemma one_row_extents (curve : R) :
  exists e,
    calculate_extents (scenario 300 curve 3) three_squares = Ok e
    /\ row_length e = 3%Z
    /\ max_image_width_cm e = 1.54
    /\ max_image_height_cm e = 1.54
    /\ image_gap_cm e = 0.154
    /\ total_width_cm e = 3.388
    /\ left_most_cm e = -1.694
    /\ top_most_cm e = 0.
Proof.
  destruct (calculate_extents_total (scenario 300 curve 3) three_squares)
    as [e He]; [discriminate | discriminate |].
  exists e. split; [exact He |].
  destruct (calculate_extents_inv _ _ _ He)
    as (max_w & max_h & Hw & Hh & _ & Hmw & Hmh & Hrow & _ & Hrows & Hgap
        & Htw & Hth & Hleft & Htop).
  vm_compute in Hw, Hh. inversion Hw; subst max_w. inversion Hh; subst max_h.
  cbn [scenario ppi gap_pct images_per_row] in *.
  change (3 <? 1)%Z with false in Hrow. cbn iota in Hrow.
  unfold INCHES_TO_CM in *.
  assert (max_image_width_cm e = 1.54) as Hmw' by (rewrite Hmw; lra).
  assert (max_image_height_cm e = 1.54) as Hmh' by (rewrite Hmh; lra).
  assert (image_gap_cm e = 0.154) as Hgap' by (rewrite Hgap, Hmw'; lra).
  assert (total_rows e = 1%Z) as Hrows'.
  { rewrite Hrows, Hrow. change (Z.of_nat (length three_squares)) with 3%Z.
    replace (IZR 3 / IZR 3) with (IZR 1) by lra. apply math_ceil_IZR. }
  assert (total_width_cm e = 3.388) as Htw'.
  { rewrite Htw, Hrow, Hmw', Hgap'.
    change (Z.max (3 - 1) 0) with 2%Z. change (3 - 1)%Z with 2%Z.
    rewrite float_max_0_l; lra. }
  assert (total_height_cm e = 0) as Hth'.
  { rewrite Hth, Hrows'. change (Z.max (1 - 1) 0) with 0%Z.
    change (1 - 1)%Z with 0%Z. lra. }
  repeat split; try assumption.
  - rewrite Hleft, Htw'. lra.
  - rewrite Htop, Hth'. lra.
Qed.

(** Three squares in one row, for any curvature: the entry of the [i]-th
    image, whose row position is [i / 2]. *)
Lemma one_row_layout (curve : R) :
  exists e m,
    calculate_extents (scenario 300 curve 3) three_squares = Ok e
    /\ total_width_cm e = 3.388
    /\ calculate_transforms (scenario 300 curve 3) three_squares = Ok m
    /\ forall (i : nat) (image : Image),
         three_squares !! i = Some image ->
         let t := INR i / 2 in
         exists tr,
           m !! filename image = Some tr
           /\ row_position_at (scenario 300 curve 3) e three_squares i = Ok t
           /\ translate tr
              = mkVec3d ((-1.694 + INR i * 1.694) * (1 - curve)
                         + curve * 1.694 * sin (phase_of t))
                        0
                        (curve * 1.694 * cos (phase_of t))
           /\ scale tr = mkVec3d 1.54 1.54 1
           /\ rotate tr
              = mkVec3d 0 (- curve * math_degrees (- phase_of t + 0.5 * math_tau)) 0.
Proof.
  destruct (one_row_extents curve)
    as (e & He & Hrow & Hmw & Hmh & Hgap & Htw & Hleft & Htop).
  destruct (calculate_transforms_total (scenario 300 curve 3) three_squares)
    as (e' & st & He' & _ & Hm); [discriminate | discriminate |].
  assert (e' = e) as -> by congruence.
  exists e, (transforms st). split; [exact He |]. split; [exact Htw |].
  split; [exact Hm |].
  intros i image Himg. cbv zeta.
  destruct (layout_entry _ _ _ _ He Hm three_squares_NoDup i image Himg)
    as (t & tr & Hlook & Hat & Hpos & _ & Htranslate & Hscale & Hrotate).
  rewrite Hrow, Hmw, Hgap, Htw, Hleft in Hpos.
  rewrite Hrow, Hmw, Hmh, Hgap, Htw, Hleft, Htop in Htranslate.
  specialize (Hpos ltac:(lra)).
  cbn [scenario curve_pct ppi] in *.
  assert (image = square (filename image)
          /\ IZR (Z.of_nat i mod 3) = INR i
          /\ IZR (Z.of_nat i / 3) = 0) as (Himage & Hcolumn & Hrow0).
  { destruct i as [|[|[|i]]]; cbn in Himg; inversion Himg; subst image;
      repeat split; vm_compute; lra. }
  rewrite Hcolumn in Hpos. rewrite Hcolumn, Hrow0 in Htranslate.
  assert (t = INR i / 2) as -> by (rewrite Hpos; lra).
  exists tr. split; [exact Hlook |]. split; [exact Hat |].
  split; [| split].
  - rewrite Htranslate. apply Vec3d_eq; lra.
  - rewrite Hscale, Himage. cbn [square size fst snd]. unfold INCHES_TO_CM.
    apply Vec3d_eq; lra.
  - exact Hrotate.
Qed.

(** * The claims of the specification *)

(** C1.  The conversion on a concrete image: 600 by 300 pixels at 300
    pixels per inch come out as 3.08 cm by 1.54 cm, in the maxima and in
    the scale of the image alike, where [(pixels / ppi) * 2.54] is 5.08 cm
    by 2.54 cm.  The function takes an inch to be 1.54 cm. *)
Theorem inch_taken_as_1_54_cm :
  INCHES_TO_CM = 1.54
  /\ (exists e,
         calculate_extents banner_config [banner] = Ok e
         /\ max_image_width_cm e = 3.08
         /\ max_image_height_cm e = 1.54
         /\ calculate_transforms banner_config [banner]
            = Ok {[ "banner.png" := {| translate := mkVec3d 0 0 0;
                                       scale := mkVec3d 3.08 1.54 1;
                                       rotate := mkVec3d 0 0 0 |} ]})
  /\ 3.08 <> 600 / 300 * 2.54
  /\ 1.54 <> 300 / 300 * 2.54.
Proof.
  split; [reflexivity |]. split; [| split; lra].
  destruct (calculate_transforms_total banner_config [banner])
    as (e & st & He & _ & Hm); [discriminate | discriminate |].
  exists e. split; [exact He |].
  destruct (calculate_extents_inv _ _ _ He)
    as (max_w & max_h & Hw & Hh & _ & Hmw & Hmh & Hrow & _ & Hrows & Hgap
        & Htw & Hth & Hleft & Htop).
  vm_compute in Hw, Hh. inversion Hw; subst max_w. inversion Hh; subst max_h.
  cbn [banner_config ppi gap_pct images_per_row length] in *.
  change (0 <? 1)%Z with true in Hrow. cbn iota in Hrow.
  change (Z.of_nat 1) with 1%Z in *.
  unfold INCHES_TO_CM in *.
  assert (max_image_width_cm e = 3.08) as Hmw' by (rewrite Hmw; lra).
  assert (max_image_height_cm e = 1.54) as Hmh' by (rewrite Hmh; lra).
  assert (total_rows e = 1%Z) as Hrows'.
  { rewrite Hrows, Hrow. replace (IZR 1 / IZR 1) with (IZR 1) by lra.
    apply math_ceil_IZR. }
  assert (total_width_cm e = 0) as Htw'.
  { rewrite Htw, Hrow. change (Z.max (1 - 1) 0) with 0%Z.
    change (1 - 1)%Z with 0%Z. rewrite float_max_0_l; lra. }
  assert (total_height_cm e = 0) as Hth'.
  { rewrite Hth, Hrows'. change (Z.max (1 - 1) 0) with 0%Z.
    change (1 - 1)%Z with 0%Z. lra. }
  split; [exact Hmw' |]. split; [exact Hmh' |].
  rewrite Hm. f_equal.
  assert (NoDup (map filename [banner])) as Hnd
      by (apply (bool_decide_unpack _); vm_compute; exact I).
  destruct (layout_entry _ _ _ _ He Hm Hnd 0%nat banner eq_refl)
    as (t & tr & Hlook & _ & _ & Hflat & Htranslate & Hscale & Hrotate).
  rewrite Hflat in Htranslate, Hrotate by lra.
  rewrite Hrow, Hleft, Htop, Htw', Hth' in Htranslate.
  change (Z.of_nat 0 mod 1)%Z with 0%Z in Htranslate.
  change (Z.of_nat 0 / 1)%Z with 0%Z in Htranslate.
  cbn [banner_config curve_pct ppi banner size fst snd filename] in *.
  apply map_eq. intros key.
  destruct (decide (key = "banner.png")) as [->|Hkey].
  - rewrite lookup_singleton_eq, Hlook. f_equal.
    rewrite (Transform_eq tr _ _ _ Htranslate Hscale Hrotate).
    unfold INCHES_TO_CM. f_equal; apply Vec3d_eq; lra.
  - rewrite lookup_singleton_ne by congruence. apply not_elem_of_dom.
    rewrite (calculate_transforms_dom _ _ _ Hm). cbn.
    rewrite !elem_of_union, !elem_of_singleton, elem_of_empty. tauto.
Qed.

(** C2.  The scenario of the specification, evaluated: three images of
    300 by 300 pixels at 300 pixels per inch, a gap of 0.1, no curvature,
    three images per row.  The images are placed at x = -1.694, 0 and
    1.694 with a scale of 1.54, not at -2.794, 0 and 2.794 with a scale of
    2.54: the function takes an inch to be 1.54 cm. *)
Theorem spec_scenario_layout :
  calculate_transforms (scenario 300 0 3) three_squares
  = Ok (<["c.png" := upright 1.694 1.54]>
          (<["b.png" := upright 0 1.54]>
             (<["a.png" := upright (-1.694) 1.54]> ∅)))
  /\ upright (-1.694) 1.54 <> upright (-2.794) 2.54
  /\ upright 1.694 1.54 <> upright 2.794 2.54
  /\ upright 0 1.54 <> upright 0 2.54.
Proof.
  split; [| unfold upright; repeat split; intros H; inversion H; lra].
  destruct (one_row_layout 0) as (e & m & _ & _ & Hm & Hentries).
  rewrite Hm. f_equal. apply map_eq. intros key.
  assert (forall (i : nat) (name : string) (x : R),
             three_squares !! i = Some (square name) ->
             -1.694 + INR i * 1.694 = x ->
             m !! name = Some (upright x 1.54)) as Hentry.
  { intros i name x Himg Hx.
    destruct (Hentries i (square name) Himg)
      as (tr & Hlook & _ & Htranslate & Hscale & Hrotate).
    cbn [square filename] in Hlook. rewrite Hlook. f_equal.
    rewrite (Transform_eq tr _ _ _ Htranslate Hscale Hrotate).
    unfold upright. f_equal; apply Vec3d_eq; lra. }
  destruct (decide (key = "c.png")) as [->|Hc].
  { rewrite lookup_insert_eq. apply (Hentry 2%nat); [reflexivity | cbn; lra]. }
  rewrite lookup_insert_ne by congruence.
  destruct (decide (key = "b.png")) as [->|Hb].
  { rewrite lookup_insert_eq. apply (Hentry 1%nat); [reflexivity | cbn; lra]. }
  rewrite lookup_insert_ne by congruence.
  destruct (decide (key = "a.png")) as [->|Ha].
  { rewrite lookup_insert_eq. apply (Hentry 0%nat); [reflexivity | cbn; lra]. }
  rewrite lookup_insert_ne by congruence.
  rewrite lookup_empty. apply not_elem_of_dom.
  rewrite (calculate_transforms_dom _ _ _ Hm). cbn.
  rewrite !elem_of_union, !elem_of_singleton, elem_of_empty. tauto.
Qed.

(** C3, as the code has it.  Every entry of the result was built at the turn
    of an image of that name, and with [t] the row position of that turn
    its yaw is [- curve_pct * degrees(0.5 * tau - phase)], where
    [phase = (1 - t) * pi + 0.25 * tau]: the angle is taken from the half
    circle, not from the full circle.  The rotations around the two other
    axes are 0. *)
Theorem yaw_from_half_circle (config : Config) (images : list Image)
    (e : Extents) (m : gmap string Transform) (key : string) (tr : Transform) :
  calculate_extents config images = Ok e ->
  calculate_transforms config images = Ok m ->
  m !! key = Some tr ->
  exists (i : nat) (image : Image) (t : R),
    images !! i = Some image
    /\ filename image = key
    /\ transform_at config e images i image = Ok tr
    /\ row_position_at config e images i = Ok t
    /\ vy (rotate tr)
       = - curve_pct config * math_degrees (0.5 * math_tau - phase_of t)
    /\ vx (rotate tr) = 0
    /\ vz (rotate tr) = 0.
Proof.
  intros He Hm Hkey.
  destruct (calculate_transforms_inv _ _ _ Hm)
    as [[_ ->] | (e' & st & _ & He' & Hrun & ->)].
  - rewrite lookup_empty in Hkey. discriminate.
  - assert (e' = e) as -> by congruence.
    destruct (transforms_origin config e images st Hrun key tr Hkey)
      as (i & image & Hi & Hname & Htr).
    exists i, image.
    pose proof Htr as Hbuild. unfold transform_at in Hbuild.
    apply bind_Ok_inv in Hbuild as (cur & Hcur & Hbuild).
    apply build_transform_inv in Hbuild as (t & Ht & _ & _ & Hrot).
    exists t. repeat split; try assumption.
    + unfold row_position_at. rewrite Hcur. exact Ht.
    + rewrite Hrot. cbn [vy]. f_equal. f_equal. lra.
    + now rewrite Hrot.
    + now rewrite Hrot.
Qed.

(** C3, counterexample.  Three squares on a full curve: the first image has
    row position 0 and is given a yaw of 90 degrees, where
    [- curve_pct * degrees(tau - phase)] is -90 degrees. *)
Lemma yaw_not_from_full_circle :
  exists e m tr t,
    calculate_extents (scenario 300 1 3) three_squares = Ok e
    /\ calculate_transforms (scenario 300 1 3) three_squares = Ok m
    /\ m !! "a.png" = Some tr
    /\ row_position_at (scenario 300 1 3) e three_squares 0 = Ok t
    /\ vy (rotate tr) = 90
    /\ - curve_pct (scenario 300 1 3) * math_degrees (math_tau - phase_of t) = -90
    /\ vy (rotate tr)
       <> - curve_pct (scenario 300 1 3) * math_degrees (math_tau - phase_of t).
Proof.
  destruct (one_row_layout 1) as (e & m & He & _ & Hm & Hentries).
  destruct (Hentries 0%nat (square "a.png") eq_refl)
    as (tr & Hlook & Hat & _ & _ & Hrotate).
  exists e, m, tr, (INR 0 / 2).
  assert (vy (rotate tr) = 90) as Hcode.
  { rewrite Hrotate. cbn [vy INR]. rewrite phase_of_eq. unfold math_tau.
    replace (- ((1 - 0 / 2) * PI + PI / 2) + 0.5 * (2 * PI)) with (- (PI / 2))
      by lra.
    rewrite math_degrees_opp, math_degrees_quarter. lra. }
  assert (- curve_pct (scenario 300 1 3)
          * math_degrees (math_tau - phase_of (INR 0 / 2)) = -90) as Hclaim.
  { cbn [scenario curve_pct INR]. rewrite phase_of_eq. unfold math_tau.
    replace (2 * PI - ((1 - 0 / 2) * PI + PI / 2)) with (PI / 2) by lra.
    rewrite math_degrees_quarter. lra. }
  repeat split; try assumption. rewrite Hcode, Hclaim. lra.
Qed.

(** C3, instance: the first of three squares on a full curve. *)
Lemma yaw_from_half_circle_witness :
  exists e m tr,
    calculate_extents (scenario 300 1 3) three_squares = Ok e
    /\ calculate_transforms (scenario 300 1 3) three_squares = Ok m
    /\ m !! "a.png" = Some tr
    /\ exists (i : nat) (image : Image) (t : R),
         three_squares !! i = Some image
         /\ filename image = "a.png"
         /\ transform_at (scenario 300 1 3) e three_squares i image = Ok tr
         /\ row_position_at (scenario 300 1 3) e three_squares i = Ok t
         /\ vy (rotate tr)
            = - curve_pct (scenario 300 1 3)
              * math_degrees (0.5 * math_tau - phase_of t)
         /\ vx (rotate tr) = 0
         /\ vz (rotate tr) = 0.
Proof.
  destruct (one_row_layout 1) as (e & m & He & _ & Hm & Hentries).
  destruct (Hentries 0%nat (square "a.png") eq_refl) as (tr & Hlook & _).
  exists e, m, tr. repeat split; try assumption.
  exact (yaw_from_half_circle (scenario 300 1 3) three_squares e m
           "a.png" tr He Hm Hlook).
Defined.

(** C4, as the code has it.  For a non-empty image list, a [ppi] of zero
    makes [calculate_transforms] raise [ZeroDivisionError]; no transform is
    returned.  Any other [ppi], a negative one included, is accepted and a
    mapping is returned. *)
Theorem zero_ppi_raises (config : Config) (images : list Image) :
  images <> [] ->
  (ppi config = 0%Z ->
   calculate_transforms config images = Raise ZeroDivisionError)
  /\ (ppi config <> 0%Z ->
      exists m, calculate_transforms config images = Ok m).
Proof.
  intros Himages. split; intros Hppi.
  - unfold calculate_transforms.
    destruct (decide (length images = 0%nat)) as [Hlen|_].
    + apply length_zero_iff_nil in Hlen. contradiction.
    + now rewrite calculate_extents_zero_ppi.
  - destruct (calculate_transforms_total config images Himages Hppi)
      as (e & st & _ & _ & Hm).
    eauto.
Qed.

(** C4, counterexample.  A negative [ppi] raises nothing: the layout is
    returned, with images of negative size. *)
Lemma negative_ppi_is_accepted :
  three_squares <> []
  /\ (ppi (scenario (-300) 0 3) < 0)%Z
  /\ exists m tr,
       calculate_transforms (scenario (-300) 0 3) three_squares = Ok m
       /\ m !! "a.png" = Some tr
       /\ scale tr = mkVec3d (-1.54) (-1.54) 1.
Proof.
  split; [discriminate |]. split; [reflexivity |].
  destruct (calculate_transforms_total (scenario (-300) 0 3) three_squares)
    as (e & st & He & _ & Hm); [discriminate | discriminate |].
  destruct (layout_entry _ _ _ _ He Hm three_squares_NoDup 0%nat
              (square "a.png") eq_refl)
    as (t & tr & Hlook & _ & _ & _ & _ & Hscale & _).
  exists (transforms st), tr. split; [exact Hm |]. split; [exact Hlook |].
  rewrite Hscale. cbn [square size fst snd scenario ppi]. unfold INCHES_TO_CM.
  apply Vec3d_eq; lra.
Qed.

(** C4, instance: three squares at zero pixels per inch. *)
Lemma zero_ppi_raises_witness :
  three_squares <> []
  /\ calculate_transforms (scenario 0 0 3) three_squares
     = Raise ZeroDivisionError.
Proof.
  assert (three_squares <> []) as Himages by discriminate.
  split; [exact Himages |].
  apply (zero_ppi_raises (scenario 0 0 3) three_squares Himages).
  reflexivity.
Defined.

(** C5.  With [curve_pct] equal to 0, every transform of the result has a
    depth translation of exactly 0 and a yaw of exactly 0, for every image
    list and every value of the other parameters. *)
Theorem straight_line_is_flat (config : Config) (images : list Image)
    (m : gmap string Transform) (key : string) (tr : Transform) :
  curve_pct config = 0 ->
  calculate_transforms config images = Ok m ->
  m !! key = Some tr ->
  vz (translate tr) = 0 /\ vy (rotate tr) = 0.
Proof.
  intros Hcurve Hm Hkey.
  destruct (calculate_transforms_inv _ _ _ Hm)
    as [[_ ->] | (e & st & _ & _ & Hrun & ->)].
  - rewrite lookup_empty in Hkey. discriminate.
  - destruct (transforms_origin config e images st Hrun key tr Hkey)
      as (i & image & _ & _ & Htr).
    unfold transform_at in Htr. apply bind_Ok_inv in Htr as (cur & _ & Htr).
    apply build_transform_inv in Htr as (t & _ & -> & _ & ->).
    cbn [vz vy]. rewrite Hcurve. split; lra.
Qed.

(** C5, instance: the last of three squares on a straight line. *)
Lemma straight_line_is_flat_witness :
  exists m tr,
    curve_pct (scenario 300 0 3) = 0
    /\ calculate_transforms (scenario 300 0 3) three_squares = Ok m
    /\ m !! "c.png" = Some tr
    /\ vz (translate tr) = 0
    /\ vy (rotate tr) = 0.
Proof.
  destruct (one_row_layout 0) as (e & m & _ & _ & Hm & Hentries).
  destruct (Hentries 2%nat (square "c.png") eq_refl) as (tr & Hlook & _).
  exists m, tr. split; [reflexivity |]. split; [exact Hm |].
  split; [exact Hlook |].
  exact (straight_line_is_flat (scenario 300 0 3) three_squares m "c.png" tr
           eq_refl Hm Hlook).
Defined.

(** C6.  With [curve_pct] equal to 1 and a positive [total_width_cm], every
    image is placed on the circle of radius [0.5 * total_width_cm] around
    the vertical axis: x² + z² = (0.5 * total_width_cm)². *)
Theorem full_curve_is_a_circle (config : Config) (images : list Image)
    (e : Extents) (m : gmap string Transform) (key : string) (tr : Transform) :
  calculate_extents config images = Ok e ->
  calculate_transforms config images = Ok m ->
  curve_pct config = 1 ->
  0 < total_width_cm e ->
  m !! key = Some tr ->
  vx (translate tr) * vx (translate tr) + vz (translate tr) * vz (translate tr)
  = (0.5 * total_width_cm e) * (0.5 * total_width_cm e).
Proof.
  intros He Hm Hcurve Hwidth Hkey.
  destruct (calculate_transforms_inv _ _ _ Hm)
    as [[_ ->] | (e' & st & _ & He' & Hrun & ->)].
  - rewrite lookup_empty in Hkey. discriminate.
  - assert (e' = e) as -> by congruence.
    destruct (transforms_origin config e images st Hrun key tr Hkey)
      as (i & image & _ & _ & Htr).
    unfold transform_at in Htr. apply bind_Ok_inv in Htr as (cur & _ & Htr).
    apply build_transform_inv in Htr as (t & _ & -> & _).
    cbn [vx vz]. rewrite Hcurve.
    pose proof (sin2_cos2 (phase_of t)) as Hunit. unfold Rsqr in Hunit.
    set (s := sin (phase_of t)) in *. set (c := cos (phase_of t)) in *.
    set (amp := 0.5 * total_width_cm e).
    replace (left_current_cm cur * (1.0 - 1) + 1 * amp * s) with (amp * s) by lra.
    replace (0 + 1 * amp * c) with (amp * c) by lra.
    replace (amp * s * (amp * s) + amp * c * (amp * c))
      with (amp * amp * (s * s + c * c)) by ring.
    rewrite Hunit. ring.
Qed.

(** C6, instance: the middle one of three squares on a full curve. *)
Lemma full_curve_is_a_circle_witness :
  exists e m tr,
    calculate_extents (scenario 300 1 3) three_squares = Ok e
    /\ calculate_transforms (scenario 300 1 3) three_squares = Ok m
    /\ curve_pct (scenario 300 1 3) = 1
    /\ 0 < total_width_cm e
    /\ m !! "b.png" = Some tr
    /\ vx (translate tr) * vx (translate tr)
       + vz (translate tr) * vz (translate tr)
       = (0.5 * total_width_cm e) * (0.5 * total_width_cm e).
Proof.
  destruct (one_row_layout 1) as (e & m & He & Hwidth & Hm & Hentries).
  destruct (Hentries 1%nat (square "b.png") eq_refl) as (tr & Hlook & _).
  assert (0 < total_width_cm e) as Hpos by (rewrite Hwidth; lra).
  exists e, m, tr. repeat split; try assumption.
  exact (full_curve_is_a_circle (scenario 300 1 3) three_squares e m
           "b.png" tr He Hm eq_refl Hpos Hlook).
Defined.

(** C7.  With [images_per_row] equal to [k >= 1] and more than [k] images,
    the images at indices [0 .. k-1] are all given the same vertical
    translation, and the image at index [k] is given one that is lower by
    exactly [max_image_height_cm + image_gap_cm].  When the names are
    pairwise distinct these transforms are the entries of the result. *)
Theorem row_wrapping (config : Config) (images : list Image) (k : nat) :
  ppi config <> 0%Z ->
  images_per_row config = Z.of_nat k ->
  (1 <= k)%nat ->
  (k < length images)%nat ->
  exists (e : Extents) (y0 : R),
    calculate_extents config images = Ok e
    /\ (forall (i : nat) (image : Image),
           (i < k)%nat -> images !! i = Some image ->
           exists tr,
             transform_at config e images i image = Ok tr
             /\ vy (translate tr) = y0)
    /\ (exists image tr,
           images !! k = Some image
           /\ transform_at config e images k image = Ok tr
           /\ vy (translate tr)
              = y0 - (max_image_height_cm e + image_gap_cm e))
    /\ (NoDup (map filename images) ->
        exists m,
          calculate_transforms config images = Ok m
          /\ forall (i : nat) (image : Image),
               images !! i = Some image ->
               exists tr,
                 transform_at config e images i image = Ok tr
                 /\ m !! filename image = Some tr).
Proof.
  intros Hppi Hper_row Hk Hn.
  assert (images <> []) as Himages by (intros ->; cbn in Hn; lia).
  destruct (calculate_transforms_total config images Himages Hppi)
    as (e & st & He & Hrun & Hm).
  destruct (calculate_extents_inv _ _ _ He)
    as (_ & _ & _ & _ & _ & _ & _ & Hlen & _).
  assert (row_length e = Z.of_nat k) as Hrow.
  { rewrite Hlen, Hper_row. destruct (Z.ltb_spec (Z.of_nat k) 1); [lia | reflexivity]. }
  exists e, (top_most_cm e). split; [exact He |]. split; [| split].
  - intros i image Hi Himg.
    destruct (turn_summary _ _ _ He i image Himg)
      as (cur & t & tr & _ & _ & _ & Htop & _ & _ & Htr & Hbuild).
    exists tr. split; [exact Htr |].
    apply build_transform_inv in Hbuild as (t' & _ & -> & _).
    cbn [vy]. rewrite Htop, Hrow, Z.div_small by lia. lra.
  - destruct (lookup_lt_is_Some_2 images k Hn) as [image Himg].
    destruct (turn_summary _ _ _ He k image Himg)
      as (cur & t & tr & _ & _ & _ & Htop & _ & _ & Htr & Hbuild).
    exists image, tr. split; [exact Himg |]. split; [exact Htr |].
    apply build_transform_inv in Hbuild as (t' & _ & -> & _).
    cbn [vy]. rewrite Htop, Hrow, Z.div_same by lia. lra.
  - intros Hnd. exists (transforms st). split; [exact Hm |].
    intros i image Himg.
    apply (transforms_lookup config e images st Hnd Hrun i image Himg).
Qed.

(** C7, instance: three squares, two per row. *)
Lemma row_wrapping_witness :
  exists (e : Extents) (y0 : R),
    calculate_extents (scenario 300 0 2) three_squares = Ok e
    /\ (forall (i : nat) (image : Image),
           (i < 2)%nat -> three_squares !! i = Some image ->
           exists tr,
             transform_at (scenario 300 0 2) e three_squares i image = Ok tr
             /\ vy (translate tr) = y0)
    /\ (exists image tr,
           three_squares !! 2%nat = Some image
           /\ transform_at (scenario 300 0 2) e three_squares 2 image = Ok tr
           /\ vy (translate tr)
              = y0 - (max_image_height_cm e + image_gap_cm e))
    /\ (NoDup (map filename three_squares) ->
        exists m,
          calculate_transforms (scenario 300 0 2) three_squares = Ok m
          /\ forall (i : nat) (image : Image),
               three_squares !! i = Some image ->
               exists tr,
                 transform_at (scenario 300 0 2) e three_squares i image = Ok tr
                 /\ m !! filename image = Some tr).
Proof.
  apply (row_wrapping (scenario 300 0 2) three_squares 2).
  - discriminate.
  - reflexivity.
  - lia.
  - simpl. lia.
Defined.

(** C8.  When the names of the input images are pairwise distinct, the
    mapping that [calculate_transforms] returns has exactly one entry per
    input image, under that image's name: its keys are the names and its
    size is the number of images, zero included.  A mapping is returned
    whenever the list is empty or [ppi] is not zero. *)
Theorem one_entry_per_image (config : Config) (images : list Image) :
  NoDup (map filename images) ->
  (forall m : gmap string Transform,
      calculate_transforms config images = Ok m ->
      dom m = list_to_set (map filename images)
      /\ base.size m = length images
      /\ (forall key : string, is_Some (m !! key) <-> key ∈ map filename images))
  /\ (images = [] \/ ppi config <> 0%Z ->
      exists m, calculate_transforms config images = Ok m).
Proof.
  intros Hnd. split.
  - intros m Hm.
    pose proof (calculate_transforms_dom _ _ _ Hm) as Hdom.
    split; [exact Hdom |]. split.
    + rewrite <- size_dom, Hdom, size_list_to_set, length_map by exact Hnd.
      reflexivity.
    + intros key. rewrite <- elem_of_dom, Hdom. apply elem_of_list_to_set.
  - intros [-> | Hppi].
    + exists ∅. reflexivity.
    + destruct images as [|image rest]; [exists ∅; reflexivity |].
      destruct (calculate_transforms_total config (image :: rest)
                  ltac:(discriminate) Hppi) as (e & st & _ & _ & Hm).
      eauto.
Qed.

(** C8, instance: three squares with three different names. *)
Lemma one_entry_per_image_witness :
  NoDup (map filename three_squares)
  /\ (forall m : gmap string Transform,
         calculate_transforms (scenario 300 0 3) three_squares = Ok m ->
         dom m = list_to_set (map filename three_squares)
         /\ base.size m = length three_squares
         /\ (forall key : string,
                is_Some (m !! key) <-> key ∈ map filename three_squares))
  /\ (three_squares = [] \/ ppi (scenario 300 0 3) <> 0%Z ->
      exists m, calculate_transforms (scenario 300 0 3) three_squares = Ok m).
Proof.
  assert (NoDup (map filename three_squares)) as Hnd.
  { apply (bool_decide_unpack _). vm_compute. exact I. }
  split; [exact Hnd |].
  exact (one_entry_per_image (scenario 300 0 3) three_squares Hnd).
Defined.

(** C9.  Applied to an empty image list, [calculate_transforms] returns the
    empty mapping and raises nothing, whatever the parameters are (a zero or
    negative [ppi] included). *)
Theorem empty_input_empty_mapping (config : Config) :
  calculate_transforms config [] = Ok ∅.
Proof. reflexivity. Qed.

(** C10, in exact arithmetic.  For a non-empty input and a positive [ppi],
    the row position [t] of every turn is computed without raising: the
    division by [total_width_cm] is only made when [total_width_cm > 0], and
    [t] is 0 otherwise.  With a non-negative [gap_pct], and every operation
    taken exactly, [t] lies between 0 and 1. *)
Theorem row_position_is_safe (config : Config) (images : list Image) :
  images <> [] ->
  (0 < ppi config)%Z ->
  0 <= gap_pct config ->
  exists e : Extents,
    calculate_extents config images = Ok e
    /\ forall i : nat,
         (i < length images)%nat ->
         exists (st : LoopState) (t : R),
           cursor_at config e images i = Ok st
           /\ row_position_at config e images i = Ok t
           /\ (0 < total_width_cm e ->
               t = (left_current_cm st - left_most_cm e) / total_width_cm e)
           /\ (~ 0 < total_width_cm e -> t = 0)
           /\ 0 <= t <= 1.
Proof.
  intros Himages Hppi _.
  destruct (calculate_extents_total config images Himages ltac:(lia)) as [e He].
  exists e. split; [exact He |]. intros i Hi.
  destruct (lookup_lt_is_Some_2 images i Hi) as [image Himg].
  destruct (turn_summary _ _ _ He i image Himg)
    as (st & t & tr & Hcur & Hseen & Hleft & _ & Hat & Ht & _).
  destruct (calculate_extents_inv _ _ _ He)
    as (_ & _ & _ & _ & _ & _ & _ & _ & Hk & _).
  exists st, t. split; [exact Hcur |]. split; [exact Hat |].
  split; [| split].
  - intros Hw. rewrite row_position_pos in Ht by exact Hw. congruence.
  - intros Hw. rewrite row_position_flat in Ht by exact Hw. congruence.
  - apply (row_position_bounds config images e st t He); [| | exact Ht].
    + rewrite Hseen.
      pose proof (Z.mod_pos_bound (Z.of_nat i) (row_length e) ltac:(lia)). lia.
    + rewrite Hseen. exact Hleft.
Qed.

(** C10, counterexample.  In double precision the cursor of line 137 is
    rounded at every step: for six images of 1920 pixels at 100 pixels per
    inch, a gap of 0.1 and six images per row, the row position of the last
    image is 1.0000000000000002, above 1. *)
Lemma row_position_above_one_in_doubles :
  six_frames <> []
  /\ (0 < Binary64.ppi window_defaults)%Z
  /\ PrimFloat.leb 0 (Binary64.gap_pct window_defaults) = true
  /\ exists (ts : list float) (t : float),
       Binary64.row_positions window_defaults six_frames = Ok ts
       /\ ts !! 5%nat = Some t
       /\ PrimFloat.eqb t 0x1.0000000000001p+0 = true
       /\ PrimFloat.ltb 1 t = true.
Proof.
  split; [discriminate |]. split; [reflexivity |].
  split; [vm_compute; reflexivity |].
  eexists. eexists. split; [vm_compute; reflexivity |].
  split; [reflexivity |]. split; vm_compute; reflexivity.
Qed.

(** C10, instance: three squares in one row. *)
Lemma row_position_is_safe_witness :
  three_squares <> []
  /\ (0 < ppi (scenario 300 0 3))%Z
  /\ 0 <= gap_pct (scenario 300 0 3)
  /\ exists e : Extents,
       calculate_extents (scenario 300 0 3) three_squares = Ok e
       /\ forall i : nat,
            (i < length three_squares)%nat ->
            exists (st : LoopState) (t : R),
              cursor_at (scenario 300 0 3) e three_squares i = Ok st
              /\ row_position_at (scenario 300 0 3) e three_squares i = Ok t
              /\ (0 < total_width_cm e ->
                  t = (left_current_cm st - left_most_cm e) / total_width_cm e)
              /\ (~ 0 < total_width_cm e -> t = 0)
              /\ 0 <= t <= 1.
Proof.
  assert (three_squares <> []) as Himages by discriminate.
  assert (0 < ppi (scenario 300 0 3))%Z as Hppi by reflexivity.
  assert (0 <= gap_pct (scenario 300 0 3)) as Hgap by (simpl; lra).
  split; [exact Himages |]. split; [exact Hppi |]. split; [exact Hgap |].
  exact (row_position_is_safe (scenario 300 0 3) three_squares
           Himages Hppi Hgap).
Defined.

(** * Further properties of the code *)

(** ** make_safe_prim_name *)

Lemma str_app_assoc (a b c : string) : (a +:+ b) +:+ c = a +:+ (b +:+ c).
Proof.
  induction a as [|x a IH]; [reflexivity |].
  change (String x a +:+ b) with (String x (a +:+ b)).
  change (String x (a +:+ b) +:+ c) with (String x ((a +:+ b) +:+ c)).
  now rewrite IH.
Qed.

Lemma str_replace_app (c : Ascii.ascii) (r a b : string) :
  str_replace c r (a +:+ b) = str_replace c r a +:+ str_replace c r b.
Proof.
  induction a as [|x a IH]; [reflexivity |].
  change (String x a +:+ b) with (String x (a +:+ b)).
  cbn [str_replace]. rewrite IH.
  destruct (Ascii.eqb x c); [| reflexivity].
  now rewrite str_app_assoc.
Qed.

Lemma str_contains_app (c : Ascii.ascii) (a b : string) :
  str_contains c (a +:+ b) = str_contains c a || str_contains c b.
Proof.
  induction a as [|x a IH]; [reflexivity |].
  change (String x a +:+ b) with (String x (a +:+ b)).
  cbn [str_contains]. rewrite IH. now rewrite orb_assoc.
Qed.

Lemma str_replace_absent (c : Ascii.ascii) (r s : string) :
  str_contains c s = false -> str_replace c r s = s.
Proof.
  induction s as [|x s IH]; cbn; [reflexivity |].
  intros H. apply orb_false_iff in H as [-> H]. now rewrite IH.
Qed.

(** After [s.replace(c, r)] a character [d] is absent as soon as it is
    absent from [r] and either is [c] or was absent from [s]. *)
Lemma str_contains_replace (c d : Ascii.ascii) (r s : string) :
  str_contains d r = false ->
  d = c \/ str_contains d s = false ->
  str_contains d (str_replace c r s) = false.
Proof.
  intros Hr. induction s as [|x s IH]; cbn; [reflexivity |]. intros Hs.
  destruct (Ascii.eqb_spec x c) as [->|Hx].
  - rewrite str_contains_app, Hr. cbn. apply IH.
    destruct Hs as [-> | Hs]; [now left |].
    right. now apply orb_false_iff in Hs.
  - cbn. destruct Hs as [-> | Hs].
    + destruct (Ascii.eqb_spec x c) as [|_]; [contradiction |].
      cbn. apply IH. now left.
    + apply orb_false_iff in Hs as [-> Hs]. cbn. apply IH. now right.
Qed.

Lemma make_safe_prim_name_eq (name replace : string) :
  make_safe_prim_name name replace
  = str_replace "?"%char replace
      (str_replace "."%char replace (str_replace "-"%char replace name)).
Proof. reflexivity. Qed.

Lemma str_replace_one_char (c x : Ascii.ascii) (s : string) :
  String.length (str_replace c (String x EmptyString) s) = String.length s
  /\ forall i : nat,
       String.get i (str_replace c (String x EmptyString) s)
       = option_map (fun a => if Ascii.eqb a c then x else a) (String.get i s).
Proof.
  induction s as [|a s [IHlen IHget]]; [split; [reflexivity | intros []; reflexivity] |].
  cbn [str_replace].
  change (String x EmptyString +:+ str_replace c (String x EmptyString) s)
    with (String x (str_replace c (String x EmptyString) s)).
  split.
  - destruct (Ascii.eqb a c); cbn [String.length]; now rewrite IHlen.
  - intros [|i]; destruct (Ascii.eqb a c) eqn:Hac; cbn [String.get option_map];
      rewrite ?Hac, ?IHget; reflexivity.
Qed.

Lemma make_safe_prim_name_absent (name replace : string) :
  str_contains "-"%char name = false ->
  str_contains "."%char name = false ->
  str_contains "?"%char name = false ->
  make_safe_prim_name name replace = name.
Proof.
  intros Hdash Hdot Hmark. rewrite make_safe_prim_name_eq.
  now rewrite (str_replace_absent "-"%char), (str_replace_absent "."%char),
    (str_replace_absent "?"%char).
Qed.

Lemma make_safe_prim_name_clean (name replace : string) :
  str_contains "-"%char replace = false ->
  str_contains "."%char replace = false ->
  str_contains "?"%char replace = false ->
  str_contains "-"%char (make_safe_prim_name name replace) = false
  /\ str_contains "."%char (make_safe_prim_name name replace) = false
  /\ str_contains "?"%char (make_safe_prim_name name replace) = false.
Proof.
  intros Hdash Hdot Hmark. rewrite make_safe_prim_name_eq.
  assert (str_contains "-"%char (str_replace "-"%char replace name) = false)
    as H1 by (apply str_contains_replace; auto).
  assert (str_contains "-"%char
            (str_replace "."%char replace (str_replace "-"%char replace name))
          = false) as H2 by (apply str_contains_replace; auto).
  assert (str_contains "."%char
            (str_replace "."%char replace (str_replace "-"%char replace name))
          = false) as H3 by (apply str_contains_replace; auto).
  repeat split; apply str_contains_replace; auto.
Qed.

(** X1.  With a replacement text that has none of the characters [-], [.] and
    [?], the name that [make_safe_prim_name] returns has none of them
    either. *)
Theorem safe_name_has_no_separator (name replace : string) :
  str_contains "-"%char replace = false ->
  str_contains "."%char replace = false ->
  str_contains "?"%char replace = false ->
  forall (i : nat) (a : Ascii.ascii),
    String.get i (make_safe_prim_name name replace) = Some a ->
    a <> "-"%char /\ a <> "."%char /\ a <> "?"%char.
Proof.
  intros Hdash Hdot Hmark.
  destruct (make_safe_prim_name_clean name replace Hdash Hdot Hmark)
    as (H1 & H2 & H3).
  assert (forall (c : Ascii.ascii) (s : string),
             str_contains c s = false ->
             forall i a, String.get i s = Some a -> a <> c) as Habsent.
  { intros c s. induction s as [|x s IH]; intros Hs i a Hget; [destruct i; discriminate |].
    cbn in Hs. apply orb_false_iff in Hs as [Hx Hs].
    destruct i as [|i]; cbn in Hget.
    - inversion Hget; subst a. intros ->. now rewrite Ascii.eqb_refl in Hx.
    - now apply (IH Hs i). }
  intros i a Hget. repeat split; eapply Habsent; eauto.
Qed.

(** X2.  With the default replacement the name keeps its length, and its
    characters stay where they are: each [-], [.] and [?] has become [_],
    every other character is unchanged. *)
Theorem default_safe_name_is_pointwise (name : string) :
  String.length (make_safe_prim_name name default_replace) = String.length name
  /\ forall (i : nat) (a : Ascii.ascii),
       String.get i name = Some a ->
       String.get i (make_safe_prim_name name default_replace)
       = Some (if (Ascii.eqb a "-" || Ascii.eqb a "." || Ascii.eqb a "?")%bool
               then "_"%char else a).
Proof.
  rewrite make_safe_prim_name_eq. unfold default_replace.
  destruct (str_replace_one_char "-" "_" name) as [Hlen1 Hget1].
  destruct (str_replace_one_char "." "_" (str_replace "-" "_" name))
    as [Hlen2 Hget2].
  destruct (str_replace_one_char "?" "_"
              (str_replace "." "_" (str_replace "-" "_" name)))
    as [Hlen3 Hget3].
  split; [congruence |].
  intros i a Hget. rewrite Hget3, Hget2, Hget1, Hget. cbn [option_map].
  f_equal.
  destruct (Ascii.eqb_spec a "-") as [->|_]; [reflexivity |].
  destruct (Ascii.eqb_spec a ".") as [->|_]; [reflexivity |].
  destruct (Ascii.eqb_spec a "?") as [->|_]; reflexivity.
Qed.

(** X3.  Making a name safe twice changes nothing, whenever the replacement text
    has none of the three characters. *)
Theorem safe_name_is_idempotent (name replace : string) :
  str_contains "-"%char replace = false ->
  str_contains "."%char replace = false ->
  str_contains "?"%char replace = false ->
  make_safe_prim_name (make_safe_prim_name name replace) replace
  = make_safe_prim_name name replace.
Proof.
  intros Hdash Hdot Hmark.
  destruct (make_safe_prim_name_clean name replace Hdash Hdot Hmark)
    as (H1 & H2 & H3).
  now apply make_safe_prim_name_absent.
Qed.

(** X4.  The safe name of a concatenation is the concatenation of the safe
    names: every character is treated on its own. *)
Theorem safe_name_of_concatenation (a b replace : string) :
  make_safe_prim_name (a +:+ b) replace
  = make_safe_prim_name a replace +:+ make_safe_prim_name b replace.
Proof.
  rewrite !make_safe_prim_name_eq. now rewrite !str_replace_app.
Qed.

(** X5.  Names that differ only in which of [-], [.] and [?] stands at some
    place are different names with the same safe name: the images
    [a-b.png] and [a.b.png] are given the same prim name. *)
Theorem safe_names_collide (a b : string) :
  make_safe_prim_name (a +:+ "-" +:+ b) default_replace
  = make_safe_prim_name (a +:+ "." +:+ b) default_replace
  /\ make_safe_prim_name (a +:+ "-" +:+ b) default_replace
     = make_safe_prim_name (a +:+ "?" +:+ b) default_replace
  /\ a +:+ "-" +:+ b <> a +:+ "." +:+ b
  /\ a +:+ "-" +:+ b <> a +:+ "?" +:+ b.
Proof.
  rewrite !make_safe_prim_name_eq, !str_replace_app.
  repeat split; try reflexivity.
  - intros H. apply String.app_inj in H. discriminate.
  - intros H. apply String.app_inj in H. discriminate.
Qed.

(** ** More about the layout *)

Lemma math_ceil_div (n k : Z) :
  (1 <= n)%Z -> (1 <= k)%Z ->
  math_ceil (IZR n / IZR k) = ((n - 1) / k + 1)%Z.
Proof.
  intros Hn Hk. apply math_ceil_spec.
  pose proof (Z.div_mod (n - 1) k ltac:(lia)) as Hdiv.
  pose proof (Z.mod_pos_bound (n - 1) k ltac:(lia)) as Hmod.
  set (q := ((n - 1) / k)%Z) in *.
  assert (0 < IZR k) as Hkpos by (apply IZR_lt; lia).
  assert (IZR q * IZR k < IZR n) as Hlow.
  { rewrite <- mult_IZR. apply IZR_lt. lia. }
  assert (IZR n <= (IZR q + 1) * IZR k) as Hhigh.
  { replace (IZR q + 1) with (IZR (q + 1)) by (rewrite plus_IZR; lra).
    rewrite <- mult_IZR. apply IZR_le. lia. }
  rewrite plus_IZR. split.
  - apply (Rmult_lt_reg_r (IZR k)); [exact Hkpos |].
    unfold Rdiv. rewrite Rmult_assoc, Rinv_l by lra. lra.
  - apply (Rmult_le_reg_r (IZR k)); [exact Hkpos |].
    unfold Rdiv. rewrite Rmult_assoc, Rinv_l by lra. lra.
Qed.

(** The rows: their number, and the height they span. *)
Lemma extents_rows (config : Config) (images : list Image) (e : Extents) :
  calculate_extents config images = Ok e ->
  let last_row := ((Z.of_nat (length images) - 1) / row_length e)%Z in
  (0 <= last_row)%Z
  /\ total_rows e = (last_row + 1)%Z
  /\ top_most_cm e
     = 0.5 * (IZR last_row * (max_image_height_cm e + image_gap_cm e)).
Proof.
  intros He. cbv zeta.
  destruct (calculate_extents_inv _ _ _ He)
    as (max_w & _ & Hw & _ & _ & _ & _ & _ & Hk & Hrows & _ & _ & Hth & _ & Htop).
  assert (1 <= Z.of_nat (length images))%Z as Hn.
  { destruct images; [discriminate | cbn [length]; lia]. }
  rewrite math_ceil_div in Hrows by assumption.
  set (last_row := ((Z.of_nat (length images) - 1) / row_length e)%Z) in *.
  assert (0 <= last_row)%Z as Hlast by (apply Z.div_pos; lia).
  split; [exact Hlast |]. split; [exact Hrows |].
  rewrite Htop, Hth, Hrows.
  replace (last_row + 1 - 1)%Z with last_row by lia.
  rewrite Z.max_l by lia. lra.
Qed.

(** With a positive width, the row position is the column over the last
    column. *)
Lemma row_position_closed (config : Config) (images : list Image) (e : Extents)
    (st : LoopState) (t : R) :
  calculate_extents config images = Ok e ->
  0 < total_width_cm e ->
  left_current_cm st
  = left_most_cm e + IZR (seen st) * (max_image_width_cm e + image_gap_cm e) ->
  row_position e st = Ok t ->
  0 < IZR (row_length e - 1)
  /\ 0 < max_image_width_cm e + image_gap_cm e
  /\ total_width_cm e
     = IZR (row_length e - 1) * (max_image_width_cm e + image_gap_cm e)
  /\ t = IZR (seen st) / IZR (row_length e - 1).
Proof.
  intros He Hw Hleft Ht.
  destruct (calculate_extents_inv _ _ _ He)
    as (_ & _ & _ & _ & _ & _ & _ & _ & Hk & _).
  rewrite row_position_pos in Ht by exact Hw. inversion Ht; subst t; clear Ht.
  pose proof (total_width_steps _ _ _ He) as Hsteps.
  pose proof Hw as Hpos. rewrite Hsteps in Hpos.
  apply float_max_0_pos in Hpos as [Hmax Hpos].
  rewrite Hmax in Hsteps.
  set (step := max_image_width_cm e + image_gap_cm e) in *.
  assert (0 <= IZR (row_length e - 1)) as Hcols by (apply IZR_le; lia).
  assert (0 < IZR (row_length e - 1)) as Hcols'.
  { destruct (Req_dec (IZR (row_length e - 1)) 0) as [Hzero|Hnonzero]; [| lra].
    rewrite Hzero in Hpos. lra. }
  assert (0 < step) as Hstep by nra.
  repeat split; try assumption.
  rewrite Hleft, Hsteps. field. lra.
Qed.

(** The yaw as a function of the row position. *)
Lemma yaw_of_row_position (c t : R) :
  - c * math_degrees (- phase_of t + 0.5 * math_tau) = c * (90 - 180 * t).
Proof.
  rewrite phase_of_eq. unfold math_tau, math_degrees.
  replace (- ((1 - t) * PI + PI / 2) + 0.5 * (2 * PI)) with (PI * (t - 1 / 2))
    by lra.
  field. apply PI_neq0.
Qed.

Lemma sin_phase_of (t : R) : sin (phase_of t) = - cos (t * PI).
Proof.
  rewrite phase_of_eq.
  replace ((1 - t) * PI + PI / 2) with (PI / 2 - t * PI + PI) by lra.
  now rewrite neg_sin, sin_shift.
Qed.

Lemma cos_phase_of (t : R) : cos (phase_of t) = - sin (t * PI).
Proof.
  rewrite phase_of_eq.
  replace ((1 - t) * PI + PI / 2) with (PI / 2 - t * PI + PI) by lra.
  now rewrite neg_cos, cos_shift.
Qed.

(** Every entry of the result, traced back to the turn that wrote it. *)
Lemma entry_origin (config : Config) (images : list Image) (e : Extents)
    (m : gmap string Transform) (key : string) (tr : Transform) :
  calculate_extents config images = Ok e ->
  calculate_transforms config images = Ok m ->
  m !! key = Some tr ->
  exists (i : nat) (image : Image) (st : LoopState) (t : R),
    images !! i = Some image
    /\ filename image = key
    /\ seen st = (Z.of_nat i mod row_length e)%Z
    /\ left_current_cm st
       = left_most_cm e
         + IZR (seen st) * (max_image_width_cm e + image_gap_cm e)
    /\ top_current_cm st
       = top_most_cm e
         - IZR (Z.of_nat i / row_length e)
           * (max_image_height_cm e + image_gap_cm e)
    /\ row_position e st = Ok t
    /\ 0 <= t <= 1
    /\ translate tr
       = mkVec3d (left_current_cm st * (1 - curve_pct config)
                  - curve_pct config * (0.5 * total_width_cm e) * cos (t * PI))
                 (top_current_cm st)
                 (- (curve_pct config * (0.5 * total_width_cm e) * sin (t * PI)))
    /\ rotate tr = mkVec3d 0 (curve_pct config * (90 - 180 * t)) 0.
Proof.
  intros He Hm Hkey.
  destruct (calculate_transforms_inv _ _ _ Hm)
    as [[_ ->] | (e' & st & _ & He' & Hrun & ->)].
  { rewrite lookup_empty in Hkey. discriminate. }
  assert (e' = e) as -> by congruence.
  destruct (transforms_origin config e images st Hrun key tr Hkey)
    as (i & image & Hi & Hname & Htr).
  destruct (turn_summary _ _ _ He i image Hi)
    as (cur & t & tr' & _ & Hseen & Hleft & Htop & _ & Ht & Htr' & Hbuild).
  assert (tr' = tr) as -> by congruence.
  destruct (calculate_extents_inv _ _ _ He)
    as (_ & _ & _ & _ & _ & _ & _ & _ & Hk & _).
  exists i, image, cur, t.
  rewrite <- Hseen in Hleft.
  assert (0 <= t <= 1) as Hbounds.
  { apply (row_position_bounds config images e cur t He); [| exact Hleft | exact Ht].
    rewrite Hseen.
    pose proof (Z.mod_pos_bound (Z.of_nat i) (row_length e) ltac:(lia)). lia. }
  apply build_transform_inv in Hbuild as (t' & Ht' & Htranslate & _ & Hrotate).
  assert (t' = t) as -> by congruence.
  repeat split; try assumption; try lra.
  - rewrite Htranslate, sin_phase_of, cos_phase_of. apply Vec3d_eq; lra.
  - rewrite Hrotate, yaw_of_row_position. reflexivity.
Qed.

Lemma extents_of_entry (config : Config) (images : list Image)
    (m : gmap string Transform) (key : string) (tr : Transform) :
  calculate_transforms config images = Ok m ->
  m !! key = Some tr ->
  exists e, calculate_extents config images = Ok e.
Proof.
  intros Hm Hkey.
  destruct (calculate_transforms_inv _ _ _ Hm)
    as [[_ ->] | (e & st & _ & He & _)]; [| eauto].
  rewrite lookup_empty in Hkey. discriminate.
Qed.

(** With pairwise distinct names, the entry of the image at index [i] is
    the one traced back to turn [i]. *)
Lemma entry_of_index (config : Config) (images : list Image) (e : Extents)
    (m : gmap string Transform) (i : nat) (image : Image) :
  calculate_extents config images = Ok e ->
  calculate_transforms config images = Ok m ->
  NoDup (map filename images) ->
  images !! i = Some image ->
  exists (st : LoopState) (t : R) (tr : Transform),
    m !! filename image = Some tr
    /\ seen st = (Z.of_nat i mod row_length e)%Z
    /\ left_current_cm st
       = left_most_cm e
         + IZR (seen st) * (max_image_width_cm e + image_gap_cm e)
    /\ top_current_cm st
       = top_most_cm e
         - IZR (Z.of_nat i / row_length e)
           * (max_image_height_cm e + image_gap_cm e)
    /\ row_position e st = Ok t
    /\ 0 <= t <= 1
    /\ translate tr
       = mkVec3d (left_current_cm st * (1 - curve_pct config)
                  - curve_pct config * (0.5 * total_width_cm e) * cos (t * PI))
                 (top_current_cm st)
                 (- (curve_pct config * (0.5 * total_width_cm e) * sin (t * PI)))
    /\ rotate tr = mkVec3d 0 (curve_pct config * (90 - 180 * t)) 0.
Proof.
  intros He Hm Hnd Hi.
  destruct (layout_entry _ _ _ _ He Hm Hnd i image Hi) as (_ & tr & Hlook & _).
  destruct (entry_origin _ _ _ _ _ _ He Hm Hlook)
    as (j & image' & st & t & Hj & Hname & Hfacts).
  assert (j = i) as ->.
  { apply (NoDup_lookup _ _ _ (filename image) Hnd).
    - rewrite list_lookup_fmap, Hj. cbn. now rewrite Hname.
    - rewrite list_lookup_fmap, Hi. reflexivity. }
  exists st, t, tr. split; [exact Hlook | exact Hfacts].
Qed.

(** X6.  For a curvature between 0 and 1 no image is turned by more than a
    quarter turn: the yaw of every entry lies between [-90 * curve_pct] and
    [90 * curve_pct] degrees. *)
Theorem yaw_within_quarter_turn (config : Config) (images : list Image)
    (m : gmap string Transform) (key : string) (tr : Transform) :
  0 <= curve_pct config ->
  calculate_transforms config images = Ok m ->
  m !! key = Some tr ->
  - 90 * curve_pct config <= vy (rotate tr) <= 90 * curve_pct config.
Proof.
  intros Hcurve Hm Hkey.
  destruct (extents_of_entry _ _ _ _ _ Hm Hkey) as [e He].
  destruct (entry_origin _ _ _ _ _ _ He Hm Hkey)
    as (i & image & st & t & _ & _ & _ & _ & _ & _ & Ht & _ & ->).
  cbn [vy]. split; nra.
Qed.

(** X7.  A curved row never comes forward: for a curvature of 0 or more, the
    depth of every entry lies between [- curve_pct * 0.5 * total_width_cm]
    and 0. *)
Theorem curve_bends_backwards (config : Config) (images : list Image)
    (e : Extents) (m : gmap string Transform) (key : string) (tr : Transform) :
  0 <= curve_pct config ->
  calculate_extents config images = Ok e ->
  calculate_transforms config images = Ok m ->
  m !! key = Some tr ->
  - (curve_pct config * (0.5 * total_width_cm e)) <= vz (translate tr) <= 0.
Proof.
  intros Hcurve He Hm Hkey.
  destruct (entry_origin _ _ _ _ _ _ He Hm Hkey)
    as (i & image & st & t & _ & _ & _ & _ & _ & _ & Ht & -> & _).
  cbn [vz].
  pose proof (total_width_steps _ _ _ He) as Hsteps.
  pose proof (float_max_0_nonneg
                (IZR (row_length e - 1)
                 * (max_image_width_cm e + image_gap_cm e))) as Hwidth.
  rewrite <- Hsteps in Hwidth.
  assert (0 <= sin (t * PI)) as Hsin.
  { pose proof PI_RGT_0. apply sin_ge_0; nra. }
  pose proof (SIN_bound (t * PI)) as [_ Hsin'].
  assert (0 <= curve_pct config * (0.5 * total_width_cm e)) as Hamp by nra.
  split; nra.
Qed.

(** X8.  For a curvature between 0 and 1 and a positive width, no image leaves
    the width of the row: the horizontal position of every entry lies
    between [-0.5 * total_width_cm] and [0.5 * total_width_cm]. *)
Theorem images_stay_within_the_row (config : Config) (images : list Image)
    (e : Extents) (m : gmap string Transform) (key : string) (tr : Transform) :
  0 <= curve_pct config <= 1 ->
  0 < total_width_cm e ->
  calculate_extents config images = Ok e ->
  calculate_transforms config images = Ok m ->
  m !! key = Some tr ->
  - (0.5 * total_width_cm e) <= vx (translate tr) <= 0.5 * total_width_cm e.
Proof.
  intros Hcurve Hwidth He Hm Hkey.
  destruct (entry_origin _ _ _ _ _ _ He Hm Hkey)
    as (i & image & st & t & _ & _ & Hseen & Hleft & _ & Hpos & Ht & -> & _).
  cbn [vx].
  destruct (row_position_closed _ _ _ _ _ He Hwidth Hleft Hpos)
    as (Hcols & Hstep & Htotal & _).
  destruct (calculate_extents_inv _ _ _ He)
    as (_ & _ & _ & _ & _ & _ & _ & _ & Hk & _ & _ & _ & _ & Hmost & _).
  assert (0 <= IZR (seen st) <= IZR (row_length e - 1)) as Hcol.
  { pose proof (Z.mod_pos_bound (Z.of_nat i) (row_length e) ltac:(lia)).
    split; apply IZR_le; lia. }
  set (step := max_image_width_cm e + image_gap_cm e) in *.
  set (amp := 0.5 * total_width_cm e).
  assert (- amp <= left_current_cm st <= amp) as Hwithin.
  { rewrite Hleft, Hmost. subst amp. rewrite Htotal. split; nra. }
  pose proof (COS_bound (t * PI)) as [Hcos Hcos'].
  assert (0 < amp) as Hamp by (subst amp; lra).
  set (c := curve_pct config) in *. set (l := left_current_cm st) in *.
  set (w := cos (t * PI)) in *.
  assert (0 <= c * amp) as Hca by nra.
  assert (- (c * amp) <= c * amp * w <= c * amp) as Hterm by (split; nra).
  assert (- ((1 - c) * amp) <= l * (1 - c) <= (1 - c) * amp) as Hline
      by (split; nra).
  split; nra.
Qed.


(** X10.  The parameter [images_per_row] below 1, or not below the number of
    images, gives a single row: every image is at height 0. *)
Theorem single_row_is_at_height_zero (config : Config) (images : list Image)
    (m : gmap string Transform) (key : string) (tr : Transform) :
  (images_per_row config < 1)%Z
  \/ (Z.of_nat (length images) <= images_per_row config)%Z ->
  calculate_transforms config images = Ok m ->
  m !! key = Some tr ->
  vy (translate tr) = 0.
Proof.
  intros Hper_row Hm Hkey.
  destruct (extents_of_entry _ _ _ _ _ Hm Hkey) as [e He].
  destruct (entry_origin _ _ _ _ _ _ He Hm Hkey)
    as (i & image & st & t & Hi & _ & _ & _ & Htop & _ & _ & -> & _).
  cbn [vy]. apply lookup_lt_Some in Hi.
  destruct (extents_rows _ _ _ He) as (_ & _ & Htop_most).
  destruct (calculate_extents_inv _ _ _ He)
    as (_ & _ & _ & _ & _ & _ & _ & Hrow & Hk & _).
  assert (Z.of_nat (length images) <= row_length e)%Z as Hfits.
  { rewrite Hrow. destruct (Z.ltb_spec (images_per_row config) 1); lia. }
  rewrite Htop, Htop_most, (Z.div_small (Z.of_nat i)),
    (Z.div_small (Z.of_nat (length images) - 1)) by lia.
  lra.
Qed.

(** X11.  Rows of one image: with [images_per_row] equal to 1, or a single image
    and [images_per_row] below 1, every image is on the vertical axis
    (x = 0, z = 0) and has a yaw of [90 * curve_pct] degrees. *)
Theorem lone_image_is_on_the_axis (config : Config) (images : list Image)
    (m : gmap string Transform) (key : string) (tr : Transform) :
  images_per_row config = 1%Z
  \/ ((images_per_row config < 1)%Z /\ length images = 1%nat) ->
  calculate_transforms config images = Ok m ->
  m !! key = Some tr ->
  vx (translate tr) = 0
  /\ vz (translate tr) = 0
  /\ vy (rotate tr) = 90 * curve_pct config.
Proof.
  intros Hper_row Hm Hkey.
  destruct (extents_of_entry _ _ _ _ _ Hm Hkey) as [e He].
  destruct (entry_origin _ _ _ _ _ _ He Hm Hkey)
    as (i & image & st & t & _ & _ & Hseen & Hleft & _ & Hpos & _ & -> & ->).
  cbn [vx vy vz].
  destruct (calculate_extents_inv _ _ _ He)
    as (_ & _ & _ & _ & _ & _ & _ & Hrow & _ & _ & _ & _ & _ & Hmost & _).
  assert (row_length e = 1%Z) as Hone.
  { rewrite Hrow. destruct Hper_row as [-> | [Hlow ->]]; [reflexivity |].
    destruct (Z.ltb_spec (images_per_row config) 1); [reflexivity | lia]. }
  assert (total_width_cm e = 0) as Hwidth.
  { rewrite (total_width_steps _ _ _ He), Hone.
    change (1 - 1)%Z with 0%Z. rewrite float_max_0_l; lra. }
  rewrite row_position_flat in Hpos by lra. inversion Hpos; subst t.
  rewrite Hseen, Hone, Z.mod_1_r in Hleft.
  rewrite Hleft, Hmost, Hwidth. repeat split; lra.
Qed.

(** X12.  With a positive width, the row position of the image at index [i] is
    its column over the last column: [(i mod row_length) / (row_length - 1)],
    which is 0 in the first column and 1 in the last. *)
Theorem row_position_is_column_fraction (config : Config)
    (images : list Image) (e : Extents) (i : nat) :
  0 < total_width_cm e ->
  calculate_extents config images = Ok e ->
  (i < length images)%nat ->
  row_position_at config e images i
  = Ok (IZR (Z.of_nat i mod row_length e) / IZR (row_length e - 1)).
Proof.
  intros Hwidth He Hi.
  destruct (lookup_lt_is_Some_2 images i Hi) as [image Himg].
  destruct (turn_summary _ _ _ He i image Himg)
    as (st & t & tr & _ & Hseen & Hleft & _ & Hat & Hpos & _).
  rewrite <- Hseen in Hleft.
  destruct (row_position_closed _ _ _ _ _ He Hwidth Hleft Hpos)
    as (_ & _ & _ & ->).
  now rewrite Hat, Hseen.
Qed.

(** X13.  A row is symmetric about the vertical axis, at every curvature: with a
    positive width and pairwise distinct names, two images of the same row
    whose columns add up to the last column have opposite horizontal
    positions, the same height, the same depth and opposite yaws. *)
Theorem row_is_mirror_symmetric (config : Config) (images : list Image)
    (e : Extents) (m : gmap string Transform) (i j : nat) (a b : Image) :
  0 < total_width_cm e ->
  NoDup (map filename images) ->
  calculate_extents config images = Ok e ->
  calculate_transforms config images = Ok m ->
  images !! i = Some a ->
  images !! j = Some b ->
  (Z.of_nat i / row_length e = Z.of_nat j / row_length e)%Z ->
  (Z.of_nat i mod row_length e + Z.of_nat j mod row_length e
   = row_length e - 1)%Z ->
  exists tra trb,
    m !! filename a = Some tra
    /\ m !! filename b = Some trb
    /\ vx (translate tra) = - vx (translate trb)
    /\ vy (translate tra) = vy (translate trb)
    /\ vz (translate tra) = vz (translate trb)
    /\ vy (rotate tra) = - vy (rotate trb).
Proof.
  intros Hwidth Hnd He Hm Hi Hj Hrow Hcols.
  destruct (entry_of_index _ _ _ _ _ _ He Hm Hnd Hi)
    as (sta & ta & tra & Hlooka & Hseena & Hlefta & Htopa & Hposa & _ & Htra & Hrota).
  destruct (entry_of_index _ _ _ _ _ _ He Hm Hnd Hj)
    as (stb & tb & trb & Hlookb & Hseenb & Hleftb & Htopb & Hposb & _ & Htrb & Hrotb).
  exists tra, trb. split; [exact Hlooka |]. split; [exact Hlookb |].
  destruct (row_position_closed _ _ _ _ _ He Hwidth Hlefta Hposa)
    as (Hlast & Hstep & Htotal & Hta).
  destruct (row_position_closed _ _ _ _ _ He Hwidth Hleftb Hposb)
    as (_ & _ & _ & Htb).
  destruct (calculate_extents_inv _ _ _ He)
    as (_ & _ & _ & _ & _ & _ & _ & _ & _ & _ & _ & _ & _ & Hmost & _).
  assert (IZR (seen sta) + IZR (seen stb) = IZR (row_length e - 1)) as Hsum.
  { rewrite <- plus_IZR. f_equal. lia. }
  assert (tb = 1 - ta) as ->.
  { rewrite Hta, Htb, <- Hsum. field. lra. }
  assert (left_current_cm sta = - left_current_cm stb) as Hopposite.
  { rewrite Hlefta, Hleftb, Hmost, Htotal. nra. }
  replace ((1 - ta) * PI) with (PI - ta * PI) in Htrb by lra.
  rewrite Rtrigo_facts.cos_pi_minus, sin_PI_x in Htrb.
  rewrite Htra, Htrb, Hrota, Hrotb, Hopposite, Htopa, Htopb, Hrow.
  cbn [vx vy vz]. repeat split; lra.
Qed.

(** X14.  The ends of a row do not move when the row is curved: with pairwise
    distinct names, an image of the first column is at
    [x = -0.5 * total_width_cm] and [z = 0] for every [curve_pct], and with
    a positive width an image of the last column is at
    [x = 0.5 * total_width_cm] and [z = 0]. *)
Theorem row_ends_are_fixed (config : Config) (images : list Image)
    (e : Extents) (m : gmap string Transform) (i : nat) (image : Image) :
  NoDup (map filename images) ->
  calculate_extents config images = Ok e ->
  calculate_transforms config images = Ok m ->
  images !! i = Some image ->
  exists tr,
    m !! filename image = Some tr
    /\ ((Z.of_nat i mod row_length e = 0)%Z ->
        vx (translate tr) = - (0.5 * total_width_cm e)
        /\ vz (translate tr) = 0)
    /\ (0 < total_width_cm e ->
        (Z.of_nat i mod row_length e = row_length e - 1)%Z ->
        vx (translate tr) = 0.5 * total_width_cm e
        /\ vz (translate tr) = 0).
Proof.
  intros Hnd He Hm Hi.
  destruct (entry_of_index _ _ _ _ _ _ He Hm Hnd Hi)
    as (st & t & tr & Hlook & Hseen & Hleft & _ & Hpos & _ & Htr & _).
  exists tr. split; [exact Hlook |].
  destruct (calculate_extents_inv _ _ _ He)
    as (_ & _ & _ & _ & _ & _ & _ & _ & _ & _ & _ & _ & _ & Hmost & _).
  rewrite Htr. cbn [vx vz]. split.
  - intros Hfirst. rewrite Hfirst in Hseen. rewrite Hseen in Hleft.
    assert (t = 0) as ->.
    { destruct (Rlt_dec 0 (total_width_cm e)) as [Hwidth|Hwidth].
      - rewrite row_position_pos in Hpos by exact Hwidth.
        inversion Hpos. rewrite Hleft. unfold Rdiv.
        replace (left_most_cm e + 0 * (max_image_width_cm e + image_gap_cm e)
                 - left_most_cm e) with 0 by lra.
        lra.
      - rewrite row_position_flat in Hpos by exact Hwidth. congruence. }
    rewrite Rmult_0_l, cos_0, sin_0, Hleft, Hmost. split; lra.
  - intros Hwidth Hlast.
    rewrite <- Hseen in Hlast.
    destruct (row_position_closed _ _ _ _ _ He Hwidth Hleft Hpos)
      as (Hcols & _ & Htotal & Ht).
    assert (t = 1) as ->.
    { rewrite Ht, Hlast. field. lra. }
    rewrite Rmult_1_l, cos_PI, sin_PI, Hleft, Hmost, Hlast, <- Htotal.
    split; lra.
Qed.


(** X16.  The scale of an image is its own size in pixels over [ppi], times
    [INCHES_TO_CM] (that is, 1.54), with 1 as third component: it depends
    on nothing else, neither on the other images nor on the gap, the
    curvature or the length of the rows. *)
Theorem scale_is_the_image_size (config : Config) (images : list Image)
    (m : gmap string Transform) (i : nat) (image : Image) :
  NoDup (map filename images) ->
  calculate_transforms config images = Ok m ->
  images !! i = Some image ->
  exists tr,
    m !! filename image = Some tr
    /\ scale tr
       = mkVec3d (IZR (fst (size image)) / IZR (ppi config) * 1.54)
                 (IZR (snd (size image)) / IZR (ppi config) * 1.54)
                 1.
Proof.
  intros Hnd Hm Hi.
  destruct (calculate_transforms_inv _ _ _ Hm)
    as [[-> _] | (e & st & _ & He & _)].
  { rewrite lookup_nil in Hi. discriminate. }
  destruct (layout_entry _ _ _ _ He Hm Hnd i image Hi)
    as (t & tr & Hlook & _ & _ & _ & _ & Hscale & _).
  exists tr. split; [exact Hlook | exact Hscale].
Qed.

(** ** Names that occur twice, and the callers *)

Lemma remove_dups_length {A : Type} `{EqDecision A} (l : list A) :
  (length (remove_dups l) <= length l)%nat
  /\ (length (remove_dups l) = length l <-> NoDup l).
Proof.
  induction l as [|x l [IHle IHiff]]; cbn [remove_dups length].
  - split; [lia |]. split; [intros _; constructor | reflexivity].
  - destruct (decide_rel elem_of x l) as [Hin|Hout]; cbn [length].
    + split; [lia |]. split; [lia |].
      intros Hnd. apply NoDup_cons in Hnd as [Hnot _]. contradiction.
    + split; [lia |]. rewrite NoDup_cons. split.
      * intros Hlen. split; [exact Hout | apply IHiff; lia].
      * intros [_ Hnd]. apply IHiff in Hnd. lia.
Qed.

(** X17.  The result never has more entries than there are images, and it has as
    many exactly when the names of the images are pairwise distinct: two
    images of one name share one entry. *)
Theorem entries_count (config : Config) (images : list Image)
    (m : gmap string Transform) :
  calculate_transforms config images = Ok m ->
  (base.size m <= length images)%nat
  /\ (base.size m = length images <-> NoDup (map filename images)).
Proof.
  intros Hm.
  pose proof (calculate_transforms_dom _ _ _ Hm) as Hdom.
  assert (base.size m = length (remove_dups (map filename images))) as ->.
  { rewrite <- size_dom, Hdom.
    rewrite <- (size_list_to_set (C := gset string)
                  (remove_dups (map filename images)))
      by apply NoDup_remove_dups.
    f_equal. apply set_eq. intros name.
    now rewrite !elem_of_list_to_set, elem_of_remove_dups. }
  destruct (remove_dups_length (map filename images)) as [Hle Hiff].
  rewrite length_map in Hle, Hiff. split; assumption.
Qed.

Lemma transforms_last (config : Config) (e : Extents) (images : list Image)
    (st : LoopState) :
  run_loop config e (initial_state e) images = Ok st ->
  forall (i : nat) (image : Image),
    images !! i = Some image ->
    (forall (j : nat) (later : Image),
        (i < j)%nat -> images !! j = Some later ->
        filename later <> filename image) ->
    exists tr,
      transform_at config e images i image = Ok tr
      /\ transforms st !! filename image = Some tr.
Proof.
  revert st. induction images as [|x xs IH] using rev_ind;
    intros st Hrun i image Hi Hlast.
  - rewrite lookup_nil in Hi. discriminate.
  - apply run_loop_snoc_inv in Hrun as (st1 & Hrun1 & Hbody).
    apply loop_body_inv in Hbody as (trx & Htrx & Hdict & _).
    destruct (decide (i < length xs)%nat) as [Hlt|Hge].
    + rewrite lookup_app_l in Hi by exact Hlt.
      destruct (IH st1 Hrun1 i image Hi) as (tr & Htr & Hlook).
      { intros j later Hij Hj. apply (Hlast j later Hij).
        now apply lookup_app_l_Some. }
      exists tr. split.
      * rewrite transform_at_app by lia. exact Htr.
      * rewrite Hdict, lookup_insert_ne; [exact Hlook |].
        apply (Hlast (length xs) x Hlt).
        rewrite lookup_app_r, Nat.sub_diag by lia. reflexivity.
    + assert (i = length xs) as ->.
      { apply lookup_lt_Some in Hi. rewrite length_app in Hi. cbn in Hi. lia. }
      rewrite lookup_app_r, Nat.sub_diag in Hi by lia.
      cbn in Hi. inversion Hi; subst image.
      exists trx. split.
      * apply transform_at_intro with (st := st1); [| exact Htrx].
        rewrite take_app_le by lia. now rewrite firstn_all.
      * rewrite Hdict. apply lookup_insert_eq.
Qed.

(** X18.  When several images have the same name, the entry under that name is
    the transform of the last of them: the transform built at the turn of
    an image that no later image shares its name with is the one the
    result holds. *)
Theorem last_image_of_a_name_wins (config : Config) (images : list Image)
    (e : Extents) (m : gmap string Transform) (i : nat) (image : Image) :
  calculate_extents config images = Ok e ->
  calculate_transforms config images = Ok m ->
  images !! i = Some image ->
  (forall (j : nat) (later : Image),
      (i < j)%nat -> images !! j = Some later ->
      filename later <> filename image) ->
  exists tr,
    transform_at config e images i image = Ok tr
    /\ m !! filename image = Some tr.
Proof.
  intros He Hm Hi Hlast.
  destruct (calculate_transforms_inv _ _ _ Hm)
    as [[-> _] | (e' & st & _ & He' & Hrun & ->)].
  { rewrite lookup_nil in Hi. discriminate. }
  assert (e' = e) as -> by congruence.
  apply (transforms_last config e images st Hrun i image Hi Hlast).
Qed.

Lemma open_images_names (pixels : string -> Z * Z) (config : Config) :
  map filename (open_images pixels config) = expanded_glob config.
Proof.
  unfold open_images. rewrite map_map. cbn [filename]. apply map_id.
Qed.

(** X19.  The callers never miss a key: the keys of the mapping that
    [calculate_transforms] returns for the images opened from
    [config.expanded_glob] are exactly the paths of [config.expanded_glob],
    so [transforms[asset_path]] in [create_image_sequence_group_prim] and
    [update_image_sequence_prims] finds an entry for every path. *)
Theorem every_path_has_a_transform (pixels : string -> Z * Z)
    (config : Config) (m : gmap string Transform) :
  calculate_transforms config (open_images pixels config) = Ok m ->
  forall asset_path : string,
    asset_path ∈ expanded_glob config <-> is_Some (m !! asset_path).
Proof.
  intros Hm asset_path.
  rewrite <- elem_of_dom, (calculate_transforms_dom _ _ _ Hm),
    open_images_names.
  symmetry. apply elem_of_list_to_set.
Qed.

(** ** Instances on the sample inputs *)

(** The three squares under any curvature and row length. *)
Lemma three_squares_sample (curve : R) (per_row : Z) :
  exists e m,
    calculate_extents (scenario 300 curve per_row) three_squares = Ok e
    /\ calculate_transforms (scenario 300 curve per_row) three_squares = Ok m
    /\ row_length e = (if (per_row <? 1)%Z then 3 else per_row)%Z
    /\ forall (i : nat) (image : Image),
         three_squares !! i = Some image ->
         exists tr, m !! filename image = Some tr.
Proof.
  destruct (calculate_transforms_total (scenario 300 curve per_row) three_squares)
    as (e & st & He & Hrun & Hm); [discriminate | discriminate |].
  exists e, (transforms st). split; [exact He |]. split; [exact Hm |].
  split.
  - destruct (calculate_extents_inv _ _ _ He)
      as (_ & _ & _ & _ & _ & _ & _ & Hrow & _).
    exact Hrow.
  - intros i image Hi.
    destruct (transforms_lookup _ e three_squares st three_squares_NoDup
                Hrun i image Hi) as (tr & _ & Hlook).
    eauto.
Qed.

(** The three squares in one row: the width is positive. *)
Lemma one_row_sample (curve : R) :
  exists e m,
    calculate_extents (scenario 300 curve 3) three_squares = Ok e
    /\ calculate_transforms (scenario 300 curve 3) three_squares = Ok m
    /\ row_length e = 3%Z
    /\ 0 < total_width_cm e
    /\ forall (i : nat) (image : Image),
         three_squares !! i = Some image ->
         exists tr, m !! filename image = Some tr.
Proof.
  destruct (three_squares_sample curve 3) as (e & m & He & Hm & Hrow & Hentries).
  destruct (one_row_extents curve) as (e' & He' & _ & _ & _ & _ & Hwidth & _).
  assert (e' = e) as -> by congruence.
  exists e, m. repeat split; try assumption. rewrite Hwidth. lra.
Qed.

(** X1, instance. *)
Lemma safe_name_has_no_separator_witness :
  str_contains "-"%char default_replace = false
  /\ str_contains "."%char default_replace = false
  /\ str_contains "?"%char default_replace = false
  /\ String.get 3 (make_safe_prim_name "img-001.v2?" default_replace)
     = Some "_"%char
  /\ "_"%char <> "-"%char /\ "_"%char <> "."%char /\ "_"%char <> "?"%char.
Proof.
  split; [reflexivity |]. split; [reflexivity |]. split; [reflexivity |].
  split; [reflexivity |].
  apply (safe_name_has_no_separator "img-001.v2?" default_replace
           eq_refl eq_refl eq_refl 3%nat "_"%char eq_refl).
Defined.

(** X2, instance. *)
Lemma default_safe_name_is_pointwise_witness :
  String.get 7 "img-001.v2?" = Some "."%char
  /\ String.get 7 (make_safe_prim_name "img-001.v2?" default_replace)
     = Some "_"%char.
Proof.
  split; [reflexivity |].
  exact (proj2 (default_safe_name_is_pointwise "img-001.v2?") 7%nat "."%char
           eq_refl).
Defined.

(** X3, instance. *)
Lemma safe_name_is_idempotent_witness :
  str_contains "-"%char default_replace = false
  /\ str_contains "."%char default_replace = false
  /\ str_contains "?"%char default_replace = false
  /\ make_safe_prim_name (make_safe_prim_name "img-001.v2?" default_replace)
       default_replace
     = make_safe_prim_name "img-001.v2?" default_replace.
Proof.
  split; [reflexivity |]. split; [reflexivity |]. split; [reflexivity |].
  exact (safe_name_is_idempotent "img-001.v2?" default_replace
           eq_refl eq_refl eq_refl).
Defined.

(** X19, instance. *)
Lemma every_path_has_a_transform_witness :
  exists m,
    calculate_transforms (scenario 300 0 3)
      (open_images (fun _ => (300, 300)%Z) (scenario 300 0 3)) = Ok m
    /\ forall asset_path : string,
         asset_path ∈ expanded_glob (scenario 300 0 3)
         <-> is_Some (m !! asset_path).
Proof.
  destruct (three_squares_sample 0 3) as (e & m & _ & Hm & _).
  exists m. split; [exact Hm |].
  exact (every_path_has_a_transform (fun _ => (300, 300)%Z) (scenario 300 0 3)
           m Hm).
Defined.

(** X18, instance. *)
Lemma last_image_of_a_name_wins_witness :
  exists e m tr,
    calculate_extents (scenario 300 0 3) repeated_squares = Ok e
    /\ calculate_transforms (scenario 300 0 3) repeated_squares = Ok m
    /\ repeated_squares !! 2%nat = Some (square "a.png")
    /\ transform_at (scenario 300 0 3) e repeated_squares 2 (square "a.png")
       = Ok tr
    /\ m !! "a.png" = Some tr.
Proof.
  destruct (calculate_transforms_total (scenario 300 0 3) repeated_squares)
    as (e & st & He & _ & Hm); [discriminate | discriminate |].
  destruct (last_image_of_a_name_wins (scenario 300 0 3) repeated_squares e
              (transforms st) 2 (square "a.png") He Hm eq_refl)
    as (tr & Htr & Hlook).
  { intros [|[|[|j]]] later Hij Hj; solve [lia | discriminate]. }
  exists e, (transforms st), tr. repeat split; assumption.
Defined.

(** X17, instance. *)
Lemma entries_count_witness :
  exists m,
    calculate_transforms (scenario 300 0 3) repeated_squares = Ok m
    /\ (base.size m <= length repeated_squares)%nat
    /\ (base.size m = length repeated_squares
        <-> NoDup (map filename repeated_squares)).
Proof.
  destruct (calculate_transforms_total (scenario 300 0 3) repeated_squares)
    as (e & st & _ & _ & Hm); [discriminate | discriminate |].
  exists (transforms st). split; [exact Hm |].
  exact (entries_count (scenario 300 0 3) repeated_squares (transforms st) Hm).
Defined.


(** X10, instance. *)
Lemma single_row_is_at_height_zero_witness :
  exists m tr,
    (images_per_row (scenario 300 0 0) < 1)%Z
    /\ calculate_transforms (scenario 300 0 0) three_squares = Ok m
    /\ m !! "b.png" = Some tr
    /\ vy (translate tr) = 0.
Proof.
  destruct (three_squares_sample 0 0) as (e & m & _ & Hm & _ & Hentries).
  destruct (Hentries 1%nat (square "b.png") eq_refl) as (tr & Hlook).
  assert (images_per_row (scenario 300 0 0) < 1)%Z as Hper_row by reflexivity.
  exists m, tr. repeat split; try assumption.
  exact (single_row_is_at_height_zero (scenario 300 0 0) three_squares m
           "b.png" tr (or_introl Hper_row) Hm Hlook).
Defined.

(** X11, instance. *)
Lemma lone_image_is_on_the_axis_witness :
  exists m tr,
    images_per_row (scenario 300 1 1) = 1%Z
    /\ calculate_transforms (scenario 300 1 1) three_squares = Ok m
    /\ m !! "b.png" = Some tr
    /\ vx (translate tr) = 0
    /\ vz (translate tr) = 0
    /\ vy (rotate tr) = 90 * curve_pct (scenario 300 1 1).
Proof.
  destruct (three_squares_sample 1 1) as (e & m & _ & Hm & _ & Hentries).
  destruct (Hentries 1%nat (square "b.png") eq_refl) as (tr & Hlook).
  exists m, tr. split; [reflexivity |]. split; [exact Hm |].
  split; [exact Hlook |].
  exact (lone_image_is_on_the_axis (scenario 300 1 1) three_squares m
           "b.png" tr (or_introl eq_refl) Hm Hlook).
Defined.

(** X12, instance. *)
Lemma row_position_is_column_fraction_witness :
  exists e,
    0 < total_width_cm e
    /\ calculate_extents (scenario 300 1 3) three_squares = Ok e
    /\ (1 < length three_squares)%nat
    /\ row_position_at (scenario 300 1 3) e three_squares 1
       = Ok (IZR (Z.of_nat 1 mod row_length e) / IZR (row_length e - 1)).
Proof.
  destruct (one_row_sample 1) as (e & m & He & _ & _ & Hwidth & _).
  assert (1 < length three_squares)%nat as Hi by (simpl; lia).
  exists e. repeat split; try assumption.
  exact (row_position_is_column_fraction (scenario 300 1 3) three_squares e 1
           Hwidth He Hi).
Defined.

(** X13, instance. *)
Lemma row_is_mirror_symmetric_witness :
  exists e m tra trb,
    0 < total_width_cm e
    /\ NoDup (map filename three_squares)
    /\ calculate_extents (scenario 300 1 3) three_squares = Ok e
    /\ calculate_transforms (scenario 300 1 3) three_squares = Ok m
    /\ (Z.of_nat 0 mod row_length e + Z.of_nat 2 mod row_length e
        = row_length e - 1)%Z
    /\ m !! "a.png" = Some tra
    /\ m !! "c.png" = Some trb
    /\ vx (translate tra) = - vx (translate trb)
    /\ vy (translate tra) = vy (translate trb)
    /\ vz (translate tra) = vz (translate trb)
    /\ vy (rotate tra) = - vy (rotate trb).
Proof.
  destruct (one_row_sample 1) as (e & m & He & Hm & Hrow & Hwidth & _).
  assert (Z.of_nat 0 / row_length e = Z.of_nat 2 / row_length e)%Z as Hrows
      by (rewrite Hrow; reflexivity).
  assert (Z.of_nat 0 mod row_length e + Z.of_nat 2 mod row_length e
          = row_length e - 1)%Z as Hcols by (rewrite Hrow; reflexivity).
  destruct (row_is_mirror_symmetric (scenario 300 1 3) three_squares e m
              0 2 (square "a.png") (square "c.png") Hwidth
              three_squares_NoDup He Hm eq_refl eq_refl Hrows Hcols)
    as (tra & trb & Hlooka & Hlookb & Hmirror).
  exists e, m, tra, trb.
  split; [exact Hwidth |]. split; [exact three_squares_NoDup |].
  split; [exact He |]. split; [exact Hm |]. split; [exact Hcols |].
  split; [exact Hlooka |]. split; [exact Hlookb |]. exact Hmirror.
Defined.

(** X14, instance. *)
Lemma row_ends_are_fixed_witness :
  exists e m tr,
    NoDup (map filename three_squares)
    /\ calculate_extents (scenario 300 1 3) three_squares = Ok e
    /\ calculate_transforms (scenario 300 1 3) three_squares = Ok m
    /\ (Z.of_nat 0 mod row_length e = 0)%Z
    /\ m !! "a.png" = Some tr
    /\ vx (translate tr) = - (0.5 * total_width_cm e)
    /\ vz (translate tr) = 0.
Proof.
  destruct (one_row_sample 1) as (e & m & He & Hm & Hrow & _ & _).
  assert (Z.of_nat 0 mod row_length e = 0)%Z as Hfirst
      by (rewrite Hrow; reflexivity).
  destruct (row_ends_are_fixed (scenario 300 1 3) three_squares e m
              0 (square "a.png") three_squares_NoDup He Hm eq_refl)
    as (tr & Hlook & Hleft & _).
  exists e, m, tr.
  split; [exact three_squares_NoDup |]. split; [exact He |].
  split; [exact Hm |]. split; [exact Hfirst |]. split; [exact Hlook |].
  exact (Hleft Hfirst).
Defined.


(** X6, instance. *)
Lemma yaw_within_quarter_turn_witness :
  exists m tr,
    0 <= curve_pct (scenario 300 1 3)
    /\ calculate_transforms (scenario 300 1 3) three_squares = Ok m
    /\ m !! "a.png" = Some tr
    /\ - 90 * curve_pct (scenario 300 1 3) <= vy (rotate tr)
       <= 90 * curve_pct (scenario 300 1 3).
Proof.
  destruct (one_row_sample 1) as (e & m & _ & Hm & _ & _ & Hentries).
  destruct (Hentries 0%nat (square "a.png") eq_refl) as (tr & Hlook).
  assert (0 <= curve_pct (scenario 300 1 3)) as Hcurve by (simpl; lra).
  exists m, tr. split; [exact Hcurve |]. split; [exact Hm |].
  split; [exact Hlook |].
  exact (yaw_within_quarter_turn (scenario 300 1 3) three_squares m
           "a.png" tr Hcurve Hm Hlook).
Defined.

(** X7, instance. *)
Lemma curve_bends_backwards_witness :
  exists e m tr,
    0 <= curve_pct (scenario 300 1 3)
    /\ calculate_extents (scenario 300 1 3) three_squares = Ok e
    /\ calculate_transforms (scenario 300 1 3) three_squares = Ok m
    /\ m !! "b.png" = Some tr
    /\ - (curve_pct (scenario 300 1 3) * (0.5 * total_width_cm e))
       <= vz (translate tr) <= 0.
Proof.
  destruct (one_row_sample 1) as (e & m & He & Hm & _ & _ & Hentries).
  destruct (Hentries 1%nat (square "b.png") eq_refl) as (tr & Hlook).
  assert (0 <= curve_pct (scenario 300 1 3)) as Hcurve by (simpl; lra).
  exists e, m, tr. split; [exact Hcurve |]. split; [exact He |].
  split; [exact Hm |]. split; [exact Hlook |].
  exact (curve_bends_backwards (scenario 300 1 3) three_squares e m
           "b.png" tr Hcurve He Hm Hlook).
Defined.

(** X8, instance. *)
Lemma images_stay_within_the_row_witness :
  exists e m tr,
    0 <= curve_pct (scenario 300 1 3) <= 1
    /\ 0 < total_width_cm e
    /\ calculate_extents (scenario 300 1 3) three_squares = Ok e
    /\ calculate_transforms (scenario 300 1 3) three_squares = Ok m
    /\ m !! "b.png" = Some tr
    /\ - (0.5 * total_width_cm e) <= vx (translate tr)
       <= 0.5 * total_width_cm e.
Proof.
  destruct (one_row_sample 1) as (e & m & He & Hm & _ & Hwidth & Hentries).
  destruct (Hentries 1%nat (square "b.png") eq_refl) as (tr & Hlook).
  assert (0 <= curve_pct (scenario 300 1 3) <= 1) as Hcurve by (simpl; lra).
  exists e, m, tr. split; [exact Hcurve |]. split; [exact Hwidth |].
  split; [exact He |]. split; [exact Hm |]. split; [exact Hlook |].
  exact (images_stay_within_the_row (scenario 300 1 3) three_squares e m
           "b.png" tr Hcurve Hwidth He Hm Hlook).
Defined.

(** X16, instance. *)
Lemma scale_is_the_image_size_witness :
  exists m tr,
    NoDup (map filename three_squares)
    /\ calculate_transforms (scenario 300 1 3) three_squares = Ok m
    /\ m !! "a.png" = Some tr
    /\ scale tr = mkVec3d (IZR 300 / IZR 300 * 1.54) (IZR 300 / IZR 300 * 1.54) 1.
Proof.
  destruct (one_row_sample 1) as (e & m & _ & Hm & _).
  destruct (scale_is_the_image_size (scenario 300 1 3) three_squares m
              0 (square "a.png") three_squares_NoDup Hm eq_refl)
    as (tr & Hlook & Hscale).
  exists m, tr. split; [exact three_squares_NoDup |]. split; [exact Hm |].
  split; [exact Hlook | exact Hscale].
Defined.
